(** * InterestsSimulator: the month-by-month investment simulation

    A shallow embedding of [InvestmentAccount] from [main.py] and the
    properties of its [simulate] method.

    Numbers.  The Python program computes on [int] and [float] values.  The
    embedding reads every amount and rate as a real number, so [+], [-], [*]
    and [/] are exact; [round(x, 2)] is rounding to the nearest hundredth,
    ties to the even neighbour, and [b ** e] is the real power where Python
    returns a real.  Binary floating-point rounding error is outside the
    model. *)

From Stdlib Require Import Reals.Reals Lra Lia ZArith.ZArith.
From Stdlib Require Import Lists.List Strings.String Strings.Ascii.
From Stdlib Require Import Numbers.DecimalString Numbers.DecimalZ Numbers.DecimalPos.
Import ListNotations.

Local Open Scope string_scope.
Local Open Scope R_scope.

(** ** Host-language primitives *)

(** Exceptions that the body of [simulate] can raise. *)
Inductive exn : Type :=
| TypeError
| IndexError.

(** [range(lo, hi)]: the integers [lo], [lo + 1], ..., [hi - 1]; empty when
    [hi <= lo]. *)
Definition range (lo hi : Z) : list Z :=
  map (fun k => (lo + Z.of_nat k)%Z) (seq 0 (Z.to_nat (hi - lo))).

(** [l[i]] on a list: a negative index counts from the end, an index out of
    range raises [IndexError] ([None]). *)
Definition list_get {A : Type} (l : list A) (i : Z) : option A :=
  if (i <? 0)%Z
  then (if (i + Z.of_nat (List.length l) <? 0)%Z then None
        else nth_error l (Z.to_nat (i + Z.of_nat (List.length l))))
  else nth_error l (Z.to_nat i).

(** [str(z)], as an f-string renders an integer: decimal digits, with a
    leading minus sign for a negative number. *)
Definition str (z : Z) : string := NilZero.string_of_int (Z.to_int z).

(** Nearest integer, ties to even. *)
Definition round_half_even (x : R) : Z :=
  let n := Int_part x in
  let d := x - IZR n in
  if Rlt_dec d (1 / 2) then n
  else if Rlt_dec (1 / 2) d then (n + 1)%Z
  else if Z.even n then n else (n + 1)%Z.

(** [round(x, 2)]. *)
Definition round2 (x : R) : R := IZR (round_half_even (x * 100)) / 100.

(** [b ** e] for the exponents the program uses ([e = 1 / 12], positive and
    not an integer).  A positive base gives the real power and a zero base
    gives zero.  A negative base gives a complex number in Python 3; [None]
    stands for that result, on which [round] is not defined. *)
Definition py_pow (b e : R) : option R :=
  if Rlt_dec 0 b then Some (Rpower b e)
  else if Rlt_dec b 0 then None
  else Some 0.

(** ** The ledger: a data frame indexed by label *)

(** One row of [self.data], in column order: "Somme totale", "Somme totale
    investie", "Bénéfices", "Frais de gestion", "Montants totaux de frais de
    gestion", "Évolution du marché", "Dividendes versés", "Contribution
    ajoutée". *)
Record Row : Type := mkRow {
  somme_totale : R;
  somme_totale_investie : R;
  benefices : R;
  frais_de_gestion : R;
  montants_totaux_de_frais_de_gestion : R;
  evolution_du_marche : R;
  dividendes_verses : R;
  contribution_ajoutee : R
}.

(** The frame keeps its rows in insertion order, each under its index
    label. *)
Definition DataFrame : Type := list (string * Row).

(** [df.loc[label] = row]: the row under an existing label is overwritten in
    place, a new label is appended at the end. *)
Fixpoint loc_set (df : DataFrame) (label : string) (row : Row) : DataFrame :=
  match df with
  | [] => [(label, row)]
  | (l, r) :: rest =>
      if String.eqb l label then (l, row) :: rest
      else (l, r) :: loc_set rest label row
  end.

(** ** The account object *)

Record InvestmentAccount : Type := mkAccount {
  name : string;
  start_amount : R;
  management_fee : R;
  market_growth : R;
  dividend_yield : R;
  monthly_contribution : R;
  data : DataFrame;
  months : list string;
  current_year : Z
}.

Definition set_data (self : InvestmentAccount) (d : DataFrame) : InvestmentAccount :=
  mkAccount (name self) (start_amount self) (management_fee self)
            (market_growth self) (dividend_yield self)
            (monthly_contribution self) d (months self) (current_year self).

Definition MONTHS : list string :=
  ["Janvier"; "Février"; "Mars"; "Avril";
   "Mai"; "Juin"; "Juillet"; "Août";
   "Septembre"; "Octobre"; "Novembre"; "Décembre"].

(** [InvestmentAccount.__init__]. *)
Definition __init__ (name : string)
    (start_amount management_fee market_growth dividend_yield monthly_contribution : R)
    : InvestmentAccount :=
  mkAccount name start_amount management_fee market_growth dividend_yield
            monthly_contribution [] MONTHS 2025%Z.

(** [InvestmentAccount.get_data]. *)
Definition get_data (self : InvestmentAccount) : DataFrame := data self.

(** ** [simulate] *)

(** The local running totals of one call of [simulate]. *)
Record Totals : Type := mkTotals {
  total_amount : R;
  total_invested : R;
  total_fees : R;
  total_fees_cumulative : R;
  total_dividends : R
}.

(** Result of running part of a loop: either the loop goes on with the object
    and the locals, or an exception leaves the method and only the object
    survives. *)
Inductive outcome : Type :=
| Next (self : InvestmentAccount) (t : Totals)
| Raised (e : exn) (self : InvestmentAccount).

(** A [for] loop over [xs], threading the object and the locals, left at the
    first exception. *)
Fixpoint for_each {A : Type} (xs : list A)
    (body : A -> InvestmentAccount -> Totals -> outcome)
    (self : InvestmentAccount) (t : Totals) : outcome :=
  match xs with
  | [] => Next self t
  | x :: rest =>
      match body x self t with
      | Next self' t' => for_each rest body self' t'
      | Raised e self' => Raised e self'
      end
  end.

(** The body of the inner loop (lines 152-182).  In the assignment to
    [self.data.loc[...]] Python evaluates the list of rounded values before
    the label, so a complex balance raises [TypeError] before the row is
    stored. *)
Definition month_body (year month : Z) (self : InvestmentAccount) (t : Totals)
    : outcome :=
  let total_amount := total_amount t + monthly_contribution self in
  let total_invested := total_invested t + monthly_contribution self in
  match py_pow (1 + market_growth self) (1 / 12) with
  | None => Raised TypeError self
  | Some growth_factor =>
      let market_change := total_amount * (growth_factor - 1) in
      let total_amount := total_amount + market_change in
      let fees :=
        if (month mod 3 =? 0)%Z
        then (total_amount * (management_fee self / 100)) / 4 else 0 in
      let total_amount := total_amount - fees in
      let total_fees := total_fees t + fees in
      let total_fees_cumulative := total_fees_cumulative t + fees in
      let dividends :=
        if (month =? 12)%Z then total_amount * dividend_yield self else 0 in
      let total_amount := total_amount + dividends in
      let total_dividends := total_dividends t + dividends in
      let row :=
        mkRow (round2 total_amount)
              (round2 total_invested)
              (round2 (total_amount - total_invested))
              (round2 total_fees)
              (round2 total_fees_cumulative)
              (round2 market_change)
              (round2 dividends)
              (round2 (monthly_contribution self)) in
      match list_get (months self) (month - 1) with
      | None => Raised IndexError self
      | Some month_name =>
          let label := month_name ++ " " ++ str (current_year self + year - 1) in
          Next (set_data self (loc_set (data self) label row))
               (mkTotals total_amount total_invested total_fees
                         total_fees_cumulative total_dividends)
      end
  end.

(** [InvestmentAccount.simulate]: the object after the call, and the
    exception that left it, if any. *)
Definition simulate (self : InvestmentAccount) (years : Z)
    : InvestmentAccount * option exn :=
  let t0 := mkTotals (start_amount self) (start_amount self) 0 0 0 in
  match for_each (range 1 (years + 1))
                 (fun year => for_each (range 1 13) (month_body year))
                 self t0 with
  | Next self' _ => (self', None)
  | Raised e self' => (self', Some e)
  end.

(** ** The monthly step in the specification's words *)

(** What one month produces: the running totals carried to the next month
    and the three amounts of the month itself. *)
Record Month : Type := mkMonth {
  after : Totals;
  market_change : R;
  fee_charged : R;
  dividend_paid : R
}.

(** Steps 1 to 4 of the specification, on unrounded values, for a month
    numbered 1 to 12 within its year and a monthly growth factor [factor]:
    contribution, multiplication by the growth factor, quarterly fee on the
    balance after growth, December dividend on the balance after the fee. *)
Definition spec_step (self : InvestmentAccount) (factor : R) (month : Z)
    (t : Totals) : Month :=
  let contributed := total_amount t + monthly_contribution self in
  let invested := total_invested t + monthly_contribution self in
  let grown := contributed * factor in
  let change := contributed * (factor - 1) in
  let fee :=
    if (month mod 3 =? 0)%Z then grown * (management_fee self / 100) / 4 else 0 in
  let charged := grown - fee in
  let dividend :=
    if (month =? 12)%Z then charged * dividend_yield self else 0 in
  let paid := charged + dividend in
  mkMonth (mkTotals paid invested (total_fees t + fee)
                    (total_fees_cumulative t + fee)
                    (total_dividends t + dividend))
          change fee dividend.

(** The totals [simulate] starts from. *)
Definition initial_totals (self : InvestmentAccount) : Totals :=
  mkTotals (start_amount self) (start_amount self) 0 0 0.

(** The number, 1 to 12, of the [i]-th simulated month within its year, [i]
    counted from 0. *)
Definition month_of (i : nat) : Z := (Z.of_nat (i mod 12) + 1)%Z.

(** The unrounded totals after [n] months. *)
Fixpoint totals_after (self : InvestmentAccount) (factor : R) (n : nat) : Totals :=
  match n with
  | O => initial_totals self
  | S k => after (spec_step self factor (month_of k) (totals_after self factor k))
  end.

(** The [i]-th month of the run. *)
Definition month_at (self : InvestmentAccount) (factor : R) (i : nat) : Month :=
  spec_step self factor (month_of i) (totals_after self factor i).

(** The record emitted for a month: every unrounded value rounded to two
    decimals. *)
Definition emitted (self : InvestmentAccount) (m : Month) : Row :=
  mkRow (round2 (total_amount (after m)))
        (round2 (total_invested (after m)))
        (round2 (total_amount (after m) - total_invested (after m)))
        (round2 (total_fees (after m)))
        (round2 (total_fees_cumulative (after m)))
        (round2 (market_change m))
        (round2 (dividend_paid m))
        (round2 (monthly_contribution self)).

(** The label of the [i]-th month: "Janvier 2025", "Février 2025", ... *)
Definition label_at (i : nat) : string :=
  nth (i mod 12) MONTHS "" ++ " " ++ str (2025 + Z.of_nat (i / 12)).

(** The first [n] records of the run, in order. *)
Definition ledger (self : InvestmentAccount) (factor : R) (n : nat) : DataFrame :=
  map (fun i => (label_at i, emitted self (month_at self factor i))) (seq 0 n).

(** The frame after the records of the months [idx] have been stored into
    [d], one after the other. *)
Definition store (self : InvestmentAccount) (factor : R) (idx : list nat)
    (d : DataFrame) : DataFrame :=
  fold_left
    (fun d i => loc_set d (label_at i) (emitted self (month_at self factor i)))
    idx d.

(** The monthly growth factor of an account, when it is a real number. *)
Definition growth_factor (self : InvestmentAccount) : option R :=
  py_pow (1 + market_growth self) (1 / 12).

(** The accounts a program can hold: built by the constructor, then
    simulated any number of times. *)
Inductive reachable : InvestmentAccount -> Prop :=
| reach_init : forall n s fee g dy c, reachable (__init__ n s fee g dy c)
| reach_simulate : forall self years,
    reachable self -> reachable (fst (simulate self years)).

(** The object is as the constructor left it, the ledger apart. *)
Definition well_formed (self : InvestmentAccount) : Prop :=
  months self = MONTHS /\ current_year self = 2025%Z.

(** The six configuration fields of an account. *)
Definition configuration (self : InvestmentAccount)
    : string * R * R * R * R * R :=
  (name self, start_amount self, management_fee self, market_growth self,
   dividend_yield self, monthly_contribution self).

(** The example accounts of [main.py]. *)
Definition assurance_vie : InvestmentAccount :=
  __init__ "Assurance Vie" 5000 (75 / 100) (10 / 100) (159 / 10000) 600.

Definition pea : InvestmentAccount :=
  __init__ "PEA" 5000 0 (10 / 100) (159 / 10000) (600 - 2).

Definition fee_example : InvestmentAccount :=
  __init__ "Frais" 10000 4 0 0 0.

Definition thousandth_example : InvestmentAccount :=
  __init__ "Millieme" 0 0 0 0 (1 / 1000).

Definition withdrawal_example : InvestmentAccount :=
  __init__ "Retraits" 100 0 0 0 (-1).

Definition crash_example : InvestmentAccount :=
  __init__ "Krach" 100 0 (-2) 0 0.

Definition savings_example : InvestmentAccount :=
  __init__ "Epargne" 100 0 0 0 (25 / 2).

(** The final record of a ledger ([df.iloc[-1]]), if there is one. *)
Definition last_row (df : DataFrame) : option Row :=
  match rev df with
  | [] => None
  | (_, r) :: _ => Some r
  end.

(** ** The plotting helpers *)

(** [l[::step]] for a positive [step]: the elements at positions 0, [step],
    [2 * step], ...; [skip] counts the elements to pass over before the next
    one is taken. *)
Fixpoint stride {A : Type} (step skip : nat) (l : list A) : list A :=
  match l with
  | [] => []
  | x :: rest =>
      match skip with
      | O => x :: stride step (step - 1) rest
      | S k => stride step k rest
      end
  end.

Definition slice_step {A : Type} (l : list A) (step : nat) : list A :=
  stride step 0 l.

(** The positions and labels that [plot_investment] hands to [plt.xticks]
    (lines 34, 37 and 49): [numeric_index[::12]] and [data.index[::12]]. *)
Definition xticks (account : InvestmentAccount) : list Z * list string :=
  let data := get_data account in
  let numeric_index := range 0 (Z.of_nat (List.length data)) in
  (slice_step numeric_index 12, slice_step (map fst data) 12).

(** White space as [str.split] sees it, among the ASCII characters: tab, line
    feed, vertical tab, form feed, carriage return, the four separators
    0x1C to 0x1F and the space.  Strings are UTF-8 bytes here; white space
    outside ASCII, which no label contains, is not recognised. *)
Definition is_space (c : ascii) : bool :=
  let n := nat_of_ascii c in
  orb (andb (9 <=? n)%nat (n <=? 13)%nat) (andb (28 <=? n)%nat (n <=? 32)%nat).

(** [s.split()]: the maximal runs of characters that are not white space.
    [word] is the run read so far. *)
Fixpoint split_from (s word : string) : list string :=
  match s with
  | EmptyString => if String.eqb word "" then [] else [word]
  | String c rest =>
      if is_space c
      then (if String.eqb word "" then split_from rest ""
            else word :: split_from rest "")
      else split_from rest (word ++ String c "")
  end.

Definition split (s : string) : list string := split_from s "".

(** A string without white space. *)
Definition solid (s : string) : Prop :=
  Forall (fun c => is_space c = false) (list_ascii_of_string s).

(** The year that the tooltip of [plot_investment] shows (lines 62-63):
    [data.index[index].split()[-1]]; [None] stands for [IndexError]. *)
Definition hover_year (account : InvestmentAccount) (index : Z) : option string :=
  let data := get_data account in
  match list_get (map fst data) index with
  | None => None
  | Some label => list_get (split label) (-1)
  end.

(** * Properties *)

(** ** Rounding *)

Lemma Int_part_bounds (x : R) : IZR (Int_part x) <= x < IZR (Int_part x) + 1.
Proof.
  destruct (base_Int_part x) as [H1 H2]. lra.
Qed.

Lemma Int_part_IZR (z : Z) : Int_part (IZR z) = z.
Proof.
  symmetry. apply Int_part_spec. lra.
Qed.

Lemma round_half_even_IZR (z : Z) : round_half_even (IZR z) = z.
Proof.
  unfold round_half_even. rewrite Int_part_IZR.
  destruct (Rlt_dec (IZR z - IZR z) (1 / 2)) as [_ | H]; [reflexivity | lra].
Qed.

Lemma round_half_even_near (x : R) :
  IZR (round_half_even x) - 1 / 2 <= x <= IZR (round_half_even x) + 1 / 2.
Proof.
  unfold round_half_even.
  pose proof (Int_part_bounds x) as Hb.
  destruct (Rlt_dec (x - IZR (Int_part x)) (1 / 2)) as [H1 | H1]; [lra |].
  destruct (Rlt_dec (1 / 2) (x - IZR (Int_part x))) as [H2 | H2].
  - rewrite plus_IZR. lra.
  - destruct (Z.even (Int_part x)); [| rewrite plus_IZR]; lra.
Qed.

Lemma round_half_even_mono (x y : R) :
  x <= y -> (round_half_even x <= round_half_even y)%Z.
Proof.
  intros Hxy.
  destruct (Z_le_gt_dec (round_half_even x) (round_half_even y)) as [H | H];
    [exact H | exfalso].
  pose proof (round_half_even_near x) as Hx.
  pose proof (round_half_even_near y) as Hy.
  assert (Hz : (round_half_even y + 1 <= round_half_even x)%Z) by lia.
  apply IZR_le in Hz. rewrite plus_IZR in Hz.
  assert (Heq : x = y) by lra.
  subst y. lia.
Qed.

Lemma round2_0 : round2 0 = 0.
Proof.
  unfold round2. replace (0 * 100) with (IZR 0) by lra.
  rewrite round_half_even_IZR. lra.
Qed.

Lemma round2_cents (z : Z) : round2 (IZR z / 100) = IZR z / 100.
Proof.
  unfold round2. replace (IZR z / 100 * 100) with (IZR z) by lra.
  now rewrite round_half_even_IZR.
Qed.

Lemma round2_mono (x y : R) : x <= y -> round2 x <= round2 y.
Proof.
  intros Hxy. unfold round2.
  assert (H : (round_half_even (x * 100) <= round_half_even (y * 100))%Z)
    by (apply round_half_even_mono; lra).
  apply IZR_le in H. lra.
Qed.

(** ** The growth factor *)

Lemma py_pow_nonneg (b e : R) : 0 <= b -> exists f, py_pow b e = Some f /\ 0 <= f.
Proof.
  intros Hb. unfold py_pow.
  destruct (Rlt_dec 0 b) as [H | H].
  - eexists; split; [reflexivity |]. unfold Rpower. left. apply exp_pos.
  - destruct (Rlt_dec b 0) as [H' | H']; [lra |].
    eexists; split; [reflexivity | lra].
Qed.

Lemma py_pow_neg (b e : R) : b < 0 -> py_pow b e = None.
Proof.
  intros Hb. unfold py_pow.
  destruct (Rlt_dec 0 b) as [H | H]; [lra |].
  destruct (Rlt_dec b 0) as [H' | H']; [reflexivity | lra].
Qed.

Lemma py_pow_ge_1 (b e : R) :
  1 <= b -> 0 <= e -> exists f, py_pow b e = Some f /\ 1 <= f.
Proof.
  intros Hb He. unfold py_pow.
  destruct (Rlt_dec 0 b) as [H | H]; [| lra].
  eexists; split; [reflexivity |]. unfold Rpower.
  assert (Hln : 0 <= ln b).
  { rewrite <- ln_1. destruct Hb as [Hb | Hb].
    - left. apply ln_increasing; lra.
    - rewrite <- Hb. lra. }
  pose proof (exp_ineq1_le (e * ln b)) as Hexp.
  assert (0 <= e * ln b) by (apply Rmult_le_pos; assumption).
  lra.
Qed.

Lemma py_pow_1 (e : R) : py_pow 1 e = Some 1.
Proof.
  unfold py_pow. destruct (Rlt_dec 0 1) as [_ | H]; [| lra].
  unfold Rpower. now rewrite ln_1, Rmult_0_r, exp_0.
Qed.

(** ** Labels *)

Lemma str_inj (a b : Z) : str a = str b -> a = b.
Proof.
  unfold str. intros H.
  assert (Hnil : forall z, Z.to_int z <> Decimal.Pos Decimal.Nil
                           /\ Z.to_int z <> Decimal.Neg Decimal.Nil).
  { intros [| p | p]; simpl; split; try discriminate;
      intros [= Hp]; now apply (Unsigned.to_uint_nonnil p). }
  apply to_int_inj.
  destruct (Hnil a) as [Ha1 Ha2]. destruct (Hnil b) as [Hb1 Hb2].
  pose proof (NilZero.isi _ Ha1 Ha2) as Ea.
  pose proof (NilZero.isi _ Hb1 Hb2) as Eb.
  rewrite H in Ea. rewrite Ea in Eb. now injection Eb.
Qed.

Lemma month_name_inj (a b : nat) (s1 s2 : string) :
  (a < 12)%nat -> (b < 12)%nat ->
  nth a MONTHS "" ++ " " ++ s1 = nth b MONTHS "" ++ " " ++ s2 ->
  a = b /\ s1 = s2.
Proof.
  intros Ha Hb H.
  do 12 (destruct a as [| a];
         [ do 12 (destruct b as [| b];
                  [ simpl in H; first [discriminate H | split; congruence] |]);
           exfalso; lia |]).
  exfalso; lia.
Qed.

Lemma label_at_inj (i j : nat) : label_at i = label_at j -> i = j.
Proof.
  unfold label_at. intros H.
  apply month_name_inj in H; try (apply Nat.mod_upper_bound; discriminate).
  destruct H as [Hm Hy]. apply str_inj in Hy.
  rewrite (Nat.div_mod_eq i 12), (Nat.div_mod_eq j 12). lia.
Qed.

(** ** Writing into the frame *)

Lemma loc_set_new (d : DataFrame) (label : string) (row : Row) :
  (forall l r, In (l, r) d -> l <> label) ->
  loc_set d label row = (d ++ [(label, row)])%list.
Proof.
  induction d as [| [l r] d IH]; intros H; simpl; [reflexivity |].
  destruct (String.eqb_spec l label) as [E | _].
  - exfalso. apply (H l r); [now left | exact E].
  - rewrite IH; [reflexivity |]. intros l' r' Hin. apply (H l' r'). now right.
Qed.

Lemma loc_set_same (d1 d2 : DataFrame) (label : string) (row : Row) :
  (forall l r, In (l, r) d1 -> l <> label) ->
  loc_set (d1 ++ (label, row) :: d2)%list label row
  = (d1 ++ (label, row) :: d2)%list.
Proof.
  induction d1 as [| [l r] d1 IH]; intros H; simpl.
  - now rewrite String.eqb_refl.
  - destruct (String.eqb_spec l label) as [E | _].
    + exfalso. apply (H l r); [now left | exact E].
    + rewrite IH; [reflexivity |]. intros l' r' Hin. apply (H l' r'). now right.
Qed.

Lemma ledger_length (self : InvestmentAccount) (f : R) (n : nat) :
  List.length (ledger self f n) = n.
Proof.
  unfold ledger. now rewrite length_map, length_seq.
Qed.

Lemma ledger_S (self : InvestmentAccount) (f : R) (n : nat) :
  ledger self f (S n)
  = (ledger self f n ++ [(label_at n, emitted self (month_at self f n))])%list.
Proof.
  unfold ledger. now rewrite seq_S, map_app.
Qed.

Lemma ledger_labels (self : InvestmentAccount) (f : R) (n : nat) (l : string) (r : Row) :
  In (l, r) (ledger self f n) -> exists i, (i < n)%nat /\ l = label_at i.
Proof.
  unfold ledger. rewrite in_map_iff. intros [i [E Hin]].
  apply in_seq in Hin. exists i. split; [lia | congruence].
Qed.

Lemma ledger_nth (self : InvestmentAccount) (f : R) (n i : nat) :
  (i < n)%nat ->
  nth_error (ledger self f n) i
  = Some (label_at i, emitted self (month_at self f i)).
Proof.
  intros Hi. unfold ledger.
  rewrite nth_error_map, nth_error_nth' with (d := O) by (rewrite length_seq; lia).
  rewrite seq_nth by lia. reflexivity.
Qed.

Lemma ledger_split (self : InvestmentAccount) (f : R) (n m : nat) :
  (n < m)%nat ->
  exists rest,
    ledger self f m
    = (ledger self f n ++ (label_at n, emitted self (month_at self f n)) :: rest)%list.
Proof.
  intros H. unfold ledger.
  replace m with (n + S (m - S n))%nat by lia.
  rewrite seq_app, map_app. simpl. eexists. reflexivity.
Qed.

(** Storing the first [n] months into a frame that already holds the first
    [m] of the same run leaves the first [max m n] of them. *)
Lemma store_ledger (self : InvestmentAccount) (f : R) (m n : nat) :
  store self f (seq 0 n) (ledger self f m) = ledger self f (Nat.max m n).
Proof.
  unfold store. induction n as [| n IH].
  - simpl. now rewrite Nat.max_0_r.
  - rewrite seq_S, fold_left_app, IH. simpl.
    destruct (Nat.lt_ge_cases n m) as [Hlt | Hge].
    + replace (Nat.max m n) with m by lia.
      replace (Nat.max m (S n)) with m by lia.
      destruct (ledger_split self f n m Hlt) as [rest E]. rewrite E.
      apply loc_set_same. intros l r Hin.
      apply ledger_labels in Hin. destruct Hin as [i [Hi ->]].
      intros Habs. apply label_at_inj in Habs. lia.
    + replace (Nat.max m n) with n by lia.
      replace (Nat.max m (S n)) with (S n) by lia.
      rewrite ledger_S. apply loc_set_new. intros l r Hin.
      apply ledger_labels in Hin. destruct Hin as [i [Hi ->]].
      intros Habs. apply label_at_inj in Habs. lia.
Qed.

(** ** The loops of [simulate] *)

Lemma set_data_data (self : InvestmentAccount) : set_data self (data self) = self.
Proof. now destruct self. Qed.

Lemma spec_step_set_data (self : InvestmentAccount) (d : DataFrame) (f : R)
    (m : Z) (t : Totals) :
  spec_step (set_data self d) f m t = spec_step self f m t.
Proof. reflexivity. Qed.

Lemma totals_after_set_data (self : InvestmentAccount) (d : DataFrame) (f : R)
    (n : nat) :
  totals_after (set_data self d) f n = totals_after self f n.
Proof.
  induction n as [| n IH]; cbn [totals_after]; [reflexivity |].
  now rewrite IH, spec_step_set_data.
Qed.

Lemma month_of_split (y j : nat) :
  (j < 12)%nat -> month_of (12 * y + j) = (Z.of_nat j + 1)%Z.
Proof.
  intros Hj. unfold month_of.
  replace ((12 * y + j) mod 12)%nat with j; [reflexivity |].
  apply Nat.mod_unique with (q := y); lia.
Qed.

Lemma label_at_split (y j : nat) :
  (j < 12)%nat ->
  label_at (12 * y + j) = nth j MONTHS "" ++ " " ++ str (2025 + Z.of_nat y).
Proof.
  intros Hj. unfold label_at.
  replace ((12 * y + j) mod 12)%nat with j
    by (apply Nat.mod_unique with (q := y); lia).
  replace ((12 * y + j) / 12)%nat with y
    by (apply Nat.div_unique with (r := j); lia).
  reflexivity.
Qed.

Lemma list_get_months (j : nat) :
  (j < 12)%nat -> list_get MONTHS (Z.of_nat j + 1 - 1) = Some (nth j MONTHS "").
Proof.
  intros Hj. unfold list_get.
  destruct (Z.ltb_spec (Z.of_nat j + 1 - 1) 0) as [H | _]; [lia |].
  replace (Z.to_nat (Z.of_nat j + 1 - 1)) with j by lia.
  apply nth_error_nth'. simpl. lia.
Qed.

(** One pass through the loop body, for a real growth factor: the record of
    the month is stored and the totals advance by [spec_step]. *)
Lemma month_body_step (self : InvestmentAccount) (f : R) (y j : nat) (t : Totals) :
  well_formed self -> growth_factor self = Some f -> (j < 12)%nat ->
  month_body (Z.of_nat y + 1) (Z.of_nat j + 1) self t
  = Next (set_data self
            (loc_set (data self) (label_at (12 * y + j))
               (emitted self (spec_step self f (Z.of_nat j + 1) t))))
         (after (spec_step self f (Z.of_nat j + 1) t)).
Proof.
  intros [Hm Hy] Hf Hj. unfold month_body.
  unfold growth_factor in Hf. rewrite Hf, Hm, Hy, list_get_months by exact Hj.
  rewrite label_at_split by exact Hj.
  replace (2025 + (Z.of_nat y + 1) - 1)%Z with (2025 + Z.of_nat y)%Z by lia.
  unfold spec_step, emitted. simpl.
  set (x := total_amount t + monthly_contribution self).
  replace (x + x * (f - 1)) with (x * f) by ring.
  reflexivity.
Qed.

Lemma month_body_complex (self : InvestmentAccount) (year month : Z) (t : Totals) :
  growth_factor self = None -> month_body year month self t = Raised TypeError self.
Proof.
  intros Hf. unfold month_body. unfold growth_factor in Hf. now rewrite Hf.
Qed.

Lemma for_each_app {A : Type} (xs ys : list A)
    (body : A -> InvestmentAccount -> Totals -> outcome)
    (self : InvestmentAccount) (t : Totals) :
  for_each (xs ++ ys)%list body self t
  = match for_each xs body self t with
    | Next self' t' => for_each ys body self' t'
    | Raised e self' => Raised e self'
    end.
Proof.
  revert self t. induction xs as [| x xs IH]; intros self t; simpl.
  - reflexivity.
  - destruct (body x self t) as [self' t' | e self']; [apply IH | reflexivity].
Qed.

(** The inner loop from month [j + 1] on, in year [y + 1]. *)
Lemma months_loop (self : InvestmentAccount) (f : R) (y k j : nat) (d : DataFrame) :
  well_formed self -> growth_factor self = Some f -> (j + k <= 12)%nat ->
  for_each (map (fun q => (1 + Z.of_nat q)%Z) (seq j k))
           (month_body (Z.of_nat y + 1))
           (set_data self d) (totals_after self f (12 * y + j))
  = Next (set_data self (store self f (seq (12 * y + j) k) d))
         (totals_after self f (12 * y + j + k)).
Proof.
  intros Hwf Hf. revert j d. induction k as [| k IH]; intros j d Hjk.
  - cbn [seq map for_each store fold_left]. now rewrite Nat.add_0_r.
  - cbn [seq map for_each].
    rewrite (Z.add_comm 1 (Z.of_nat j)).
    rewrite (month_body_step (set_data self d) f y j) by (assumption || lia).
    cbn [store fold_left seq]. cbn [set_data data name start_amount management_fee
      market_growth dividend_yield monthly_contribution months current_year].
    specialize (IH (S j) (loc_set d (label_at (12 * y + j))
         (emitted self (month_at self f (12 * y + j))))).
    replace (12 * y + S j)%nat with (S (12 * y + j)) in IH by lia.
    replace (12 * y + j + S k)%nat with (S (12 * y + j) + k)%nat by lia.
    unfold month_at in *. rewrite month_of_split in * by lia.
    cbn [totals_after] in IH. rewrite month_of_split in IH by lia.
    exact (IH ltac:(lia)).
Qed.

Lemma store_app (self : InvestmentAccount) (f : R) (xs ys : list nat) (d : DataFrame) :
  store self f (xs ++ ys)%list d = store self f ys (store self f xs d).
Proof. unfold store. apply fold_left_app. Qed.

Lemma range_1_13 : range 1 13 = map (fun q => (1 + Z.of_nat q)%Z) (seq 0 12).
Proof. reflexivity. Qed.

Lemma range_years (years : Z) :
  range 1 (years + 1) = map (fun q => (1 + Z.of_nat q)%Z) (seq 0 (Z.to_nat years)).
Proof.
  unfold range. now replace (years + 1 - 1)%Z with years by lia.
Qed.

(** The outer loop over the first [n] years. *)
Lemma years_loop (self : InvestmentAccount) (f : R) (n : nat) (d : DataFrame) :
  well_formed self -> growth_factor self = Some f ->
  for_each (map (fun q => (1 + Z.of_nat q)%Z) (seq 0 n))
           (fun year => for_each (range 1 13) (month_body year))
           (set_data self d) (initial_totals self)
  = Next (set_data self (store self f (seq 0 (12 * n)) d))
         (totals_after self f (12 * n)).
Proof.
  intros Hwf Hf. induction n as [| n IH].
  - reflexivity.
  - rewrite seq_S, map_app, for_each_app, IH.
    cbn [map for_each Nat.add].
    rewrite range_1_13, (Z.add_comm 1 (Z.of_nat n)).
    pose proof (months_loop self f n 12 0
                  (store self f (seq 0 (12 * n)) d) Hwf Hf (Nat.le_refl _)) as H.
    rewrite Nat.add_0_r in H. rewrite H.
    replace (12 * S n)%nat with (12 * n + 12)%nat by lia.
    now rewrite seq_app, store_app.
Qed.

(** [simulate] with a real growth factor: the records of the first
    [12 * years] months are stored, in order, and nothing is raised. *)
Lemma simulate_real (self : InvestmentAccount) (f : R) (years : Z) :
  well_formed self -> growth_factor self = Some f ->
  simulate self years
  = (set_data self (store self f (seq 0 (12 * Z.to_nat years)) (data self)), None).
Proof.
  intros Hwf Hf. unfold simulate. cbv zeta. rewrite range_years.
  pose proof (years_loop self f (Z.to_nat years) (data self) Hwf Hf) as H.
  rewrite set_data_data in H. unfold initial_totals in H. now rewrite H.
Qed.

(** [simulate] with a complex growth factor: the first month raises
    [TypeError] before anything is stored; an empty loop raises nothing. *)
Lemma simulate_complex (self : InvestmentAccount) (years : Z) :
  growth_factor self = None ->
  simulate self years
  = (self, if (1 <=? years)%Z then Some TypeError else None).
Proof.
  intros Hf. unfold simulate. cbv zeta. rewrite range_years.
  destruct (Z.leb_spec 1 years) as [H | H].
  - destruct (Z.to_nat years) as [| n] eqn:E; [lia |].
    cbn [seq map for_each]. rewrite range_1_13. cbn [seq map for_each].
    now rewrite month_body_complex.
  - replace (Z.to_nat years) with O by lia. reflexivity.
Qed.

(** ** Reachable accounts *)

Lemma simulate_well_formed (self : InvestmentAccount) (years : Z) :
  well_formed self -> well_formed (fst (simulate self years)).
Proof.
  intros Hwf. destruct (growth_factor self) as [f |] eqn:Hf.
  - rewrite (simulate_real self f years Hwf Hf). exact Hwf.
  - rewrite (simulate_complex self years Hf). exact Hwf.
Qed.

Lemma simulate_configuration (self : InvestmentAccount) (years : Z) :
  well_formed self ->
  configuration (fst (simulate self years)) = configuration self.
Proof.
  intros Hwf. destruct (growth_factor self) as [f |] eqn:Hf.
  - now rewrite (simulate_real self f years Hwf Hf).
  - now rewrite (simulate_complex self years Hf).
Qed.

Lemma reachable_well_formed (self : InvestmentAccount) :
  reachable self -> well_formed self.
Proof.
  induction 1 as [| self years _ IH].
  - split; reflexivity.
  - now apply simulate_well_formed.
Qed.

Lemma emitted_configuration (a b : InvestmentAccount) (f : R) (i : nat) :
  configuration a = configuration b ->
  emitted a (month_at a f i) = emitted b (month_at b f i).
Proof.
  intros E. unfold configuration in E. injection E as E1 E2 E3 E4 E5 E6.
  assert (Hs : forall m t, spec_step a f m t = spec_step b f m t).
  { intros m t. unfold spec_step. now rewrite E3, E5, E6. }
  assert (Ht : forall k, totals_after a f k = totals_after b f k).
  { induction k as [| k IH]; cbn [totals_after].
    - unfold initial_totals. now rewrite E2.
    - now rewrite IH, Hs. }
  unfold month_at, emitted. now rewrite Ht, Hs, E6.
Qed.

Lemma ledger_configuration (a b : InvestmentAccount) (f : R) (n : nat) :
  configuration a = configuration b -> ledger a f n = ledger b f n.
Proof.
  intros E. unfold ledger. apply map_ext. intros i.
  now rewrite (emitted_configuration a b f i E).
Qed.

(** The ledger of a reachable account holds the records of whole years of
    its own run, and nothing when its growth factor is complex. *)
Lemma reachable_ledger (self : InvestmentAccount) :
  reachable self ->
  exists k : nat,
    data self = match growth_factor self with
                | Some f => ledger self f (12 * k)
                | None => []
                end.
Proof.
  induction 1 as [n s fee g dy c | self years Hr [k IH]].
  - exists O. cbn [data __init__]. now destruct (growth_factor _).
  - pose proof (reachable_well_formed self Hr) as Hwf.
    destruct (growth_factor self) as [f |] eqn:Hf.
    + rewrite (simulate_real self f years Hwf Hf). cbn [fst].
      exists (Nat.max k (Z.to_nat years)).
      change (growth_factor (set_data self ?d)) with (growth_factor self).
      rewrite Hf. cbn [data set_data]. rewrite IH, store_ledger.
      replace (Nat.max (12 * k) (12 * Z.to_nat years))
        with (12 * Nat.max k (Z.to_nat years))%nat by lia.
      apply ledger_configuration. reflexivity.
    + rewrite (simulate_complex self years Hf). cbn [fst].
      exists k. now rewrite Hf.
Qed.

Lemma py_pow_pos (b e : R) : 0 < b -> py_pow b e = Some (Rpower b e).
Proof.
  intros Hb. unfold py_pow. destruct (Rlt_dec 0 b) as [_ | H]; [reflexivity | lra].
Qed.

Lemma growth_factor_real (self : InvestmentAccount) :
  0 <= 1 + market_growth self -> exists f, growth_factor self = Some f /\ 0 <= f.
Proof. intros H. now apply py_pow_nonneg. Qed.

Lemma growth_factor_zero (self : InvestmentAccount) :
  market_growth self = 0 -> growth_factor self = Some 1.
Proof.
  intros H. unfold growth_factor. rewrite H.
  replace (1 + 0) with 1 by lra. apply py_pow_1.
Qed.

(** After a call with a real growth factor, the ledger of a reachable
    account holds the whole years of its run up to the longest horizon asked
    for so far. *)
Lemma simulate_ledger (self : InvestmentAccount) (f : R) (years : Z) :
  reachable self -> growth_factor self = Some f ->
  exists k : nat,
    data self = ledger self f (12 * k)
    /\ data (fst (simulate self years))
       = ledger self f (12 * Nat.max k (Z.to_nat years)).
Proof.
  intros Hr Hf.
  destruct (reachable_ledger self Hr) as [k Hk]. rewrite Hf in Hk.
  exists k. split; [exact Hk |].
  rewrite (simulate_real self f years (reachable_well_formed self Hr) Hf).
  cbn [fst data set_data]. rewrite Hk, store_ledger. f_equal. lia.
Qed.

Lemma simulate_nth (self : InvestmentAccount) (f : R) (years : Z) (i : nat) :
  reachable self -> growth_factor self = Some f ->
  (Z.of_nat i < 12 * years)%Z ->
  nth_error (data (fst (simulate self years))) i
  = Some (label_at i, emitted self (month_at self f i)).
Proof.
  intros Hr Hf Hi.
  destruct (simulate_ledger self f years Hr Hf) as [k [_ E]]. rewrite E.
  apply ledger_nth. lia.
Qed.

(** Every record of a reachable account is a record of its own run. *)
Lemma reachable_rows (self : InvestmentAccount) (i : nat) (l : string) (r : Row) :
  reachable self -> nth_error (data self) i = Some (l, r) ->
  exists f, growth_factor self = Some f
            /\ l = label_at i /\ r = emitted self (month_at self f i).
Proof.
  intros Hr Hn. destruct (reachable_ledger self Hr) as [k Hk].
  destruct (growth_factor self) as [f |].
  - exists f. split; [reflexivity |].
    assert (Hi : (i < 12 * k)%nat).
    { rewrite <- (ledger_length self f (12 * k)), <- Hk.
      apply nth_error_Some. congruence. }
    rewrite Hk, ledger_nth in Hn by exact Hi. now injection Hn.
  - rewrite Hk in Hn. now destruct i.
Qed.

(** ** Invariants of the running totals *)

Lemma total_fees_twice (self : InvestmentAccount) (f : R) (n : nat) :
  total_fees (totals_after self f n)
  = total_fees_cumulative (totals_after self f n).
Proof.
  induction n as [| n IH]; cbn [totals_after]; [reflexivity |].
  unfold spec_step. cbn [after total_fees total_fees_cumulative]. now rewrite IH.
Qed.

(** The principal is the initial deposit with the contribution added once
    per month. *)
Lemma total_invested_running_sum (self : InvestmentAccount) (f : R) (n : nat) :
  total_invested (totals_after self f n)
  = Nat.iter n (fun total => total + monthly_contribution self)
             (start_amount self).
Proof.
  induction n as [| n IH]; cbn [totals_after Nat.iter nat_rect].
  - reflexivity.
  - unfold spec_step. cbn [after total_invested]. now rewrite IH.
Qed.

(** ** The claims *)

(** *** Frame: what a call may write *)

Lemma for_each_frame {A : Type} (xs : list A)
    (body : A -> InvestmentAccount -> Totals -> outcome) :
  (forall x self t,
      match body x self t with
      | Next self' _ | Raised _ self' => exists d, self' = set_data self d
      end) ->
  forall self t,
    match for_each xs body self t with
    | Next self' _ | Raised _ self' => exists d, self' = set_data self d
    end.
Proof.
  intros Hbody. induction xs as [| x xs IH]; intros self t; cbn [for_each].
  - exists (data self). now rewrite set_data_data.
  - specialize (Hbody x self t).
    destruct (body x self t) as [self1 t1 | e self1].
    + destruct Hbody as [d1 ->]. specialize (IH (set_data self d1) t1).
      destruct (for_each xs body (set_data self d1) t1) as [self2 t2 | e self2];
        destruct IH as [d2 ->]; now exists d2.
    + exact Hbody.
Qed.

Lemma month_body_frame (year month : Z) (self : InvestmentAccount) (t : Totals) :
  match month_body year month self t with
  | Next self' _ | Raised _ self' => exists d, self' = set_data self d
  end.
Proof.
  unfold month_body.
  destruct (py_pow (1 + market_growth self) (1 / 12)) as [f |].
  - destruct (list_get (months self) (month - 1)) as [m |].
    + eexists. reflexivity.
    + exists (data self). now rewrite set_data_data.
  - exists (data self). now rewrite set_data_data.
Qed.

Lemma simulate_writes_frame (self : InvestmentAccount) (years : Z) :
  exists d, fst (simulate self years) = set_data self d.
Proof.
  unfold simulate. cbv zeta.
  pose proof (for_each_frame (range 1 (years + 1))
                (fun year => for_each (range 1 13) (month_body year))) as HF.
  match goal with |- context [for_each ?xs ?b ?s ?t] =>
    specialize (HF (fun x s' t' =>
      for_each_frame (range 1 13) (month_body x)
        (month_body_frame x) s' t') s t);
    destruct (for_each xs b s t) as [s1 t1 | e s1]
  end; exact HF.
Qed.

(** C9.  Whatever the account and the horizon, and whether the call returns
    or raises, [simulate] leaves the six configuration fields (name, initial
    deposit, management fee, market growth, dividend yield, monthly
    contribution) as they were: the object after the call is the object
    before it with another ledger. *)
Theorem simulate_writes_only_the_ledger (self : InvestmentAccount) (years : Z) :
  configuration (fst (simulate self years)) = configuration self
  /\ fst (simulate self years)
     = set_data self (data (fst (simulate self years))).
Proof.
  destruct (simulate_writes_frame self years) as [d ->]. split; reflexivity.
Qed.

(** *** The two fee columns *)

(** C10.  In every record of the ledger of a reachable account, after any
    call of [simulate], the column "Frais de gestion" holds the same value as
    the column "Montants totaux de frais de gestion": both are the rounded
    running sum of all the fees charged so far. *)
Theorem fee_column_equals_cumulative_column (self : InvestmentAccount) (years : Z) :
  reachable self ->
  Forall (fun lr => frais_de_gestion (snd lr)
                    = montants_totaux_de_frais_de_gestion (snd lr))
         (data (fst (simulate self years))).
Proof.
  intros Hr. apply Forall_forall. intros [l r] Hin.
  apply In_nth_error in Hin. destruct Hin as [i Hi].
  apply (reachable_rows _ i l r (reach_simulate self years Hr)) in Hi.
  destruct Hi as [f [_ [_ ->]]].
  cbn [snd emitted frais_de_gestion montants_totaux_de_frais_de_gestion].
  unfold month_at.
  change (after (spec_step ?a f (month_of i) (totals_after ?a f i)))
    with (totals_after a f (S i)).
  now rewrite total_fees_twice.
Qed.

Lemma fee_column_equals_cumulative_column_witness :
  Forall (fun lr => frais_de_gestion (snd lr)
                    = montants_totaux_de_frais_de_gestion (snd lr))
         (data (fst (simulate assurance_vie 30))).
Proof.
  apply (fee_column_equals_cumulative_column assurance_vie 30).
  apply reach_init.
Defined.

(** *** A horizon below one year *)

Lemma simulate_empty_range (self : InvestmentAccount) (years : Z) :
  (years < 1)%Z -> simulate self years = (self, None).
Proof.
  intros H. unfold simulate. cbv zeta. rewrite range_years.
  now replace (Z.to_nat years) with O by lia.
Qed.

(** C3, as the code has it.  For a horizon [years < 1] both loops are empty:
    the call returns without raising anything and leaves the account, its
    ledger included, exactly as it was. *)
Theorem simulate_short_horizon_is_silent (self : InvestmentAccount) (years : Z) :
  (years < 1)%Z -> simulate self years = (self, None).
Proof. exact (simulate_empty_range self years). Qed.

Lemma simulate_short_horizon_is_silent_witness :
  simulate pea (-3) = (pea, None).
Proof.
  apply (simulate_short_horizon_is_silent pea (-3)). lia.
Defined.

(** C3, as stated, fails: [simulate(0)] on a new account raises nothing and
    leaves the empty ledger in place. *)
Lemma simulate_zero_years_raises_nothing :
  snd (simulate pea 0) = None /\ data (fst (simulate pea 0)) = [].
Proof.
  rewrite (simulate_empty_range pea 0); [split; reflexivity | lia].
Qed.

(** *** The monthly step *)

Lemma list_get_month_name (month : Z) :
  (1 <= month <= 12)%Z -> exists m, list_get MONTHS (month - 1) = Some m.
Proof.
  intros H. exists (nth (Z.to_nat (month - 1)) MONTHS "").
  replace month with (Z.of_nat (Z.to_nat (month - 1)) + 1)%Z at 1 by lia.
  apply list_get_months. lia.
Qed.

(** C1.  For a real growth factor [f = (1 + market_growth) ** (1 / 12)] and a
    month numbered 1 to 12, one pass through the loop body stores a record
    and carries on with the totals of [spec_step]: the contribution is added
    to the balance and to the principal; the contributed balance is
    multiplied by [f], that is, [market_change = contributed * (f - 1)] is
    added; in months 3, 6, 9 and 12 the fee is a quarter of the annual
    percentage of the grown balance and is subtracted; in month 12 the
    dividend is the yield times the balance after the fee and is added. *)
Theorem month_body_applies_the_four_steps
    (self : InvestmentAccount) (year month : Z) (t : Totals) (f : R) :
  well_formed self -> growth_factor self = Some f -> (1 <= month <= 12)%Z ->
  let contributed := total_amount t + monthly_contribution self in
  let grown := contributed + contributed * (f - 1) in
  let fee :=
    if (month mod 3 =? 0)%Z then grown * (management_fee self / 100) / 4 else 0 in
  let charged := grown - fee in
  let dividend := if (month =? 12)%Z then charged * dividend_yield self else 0 in
  grown = contributed * f
  /\ exists d,
       month_body year month self t
       = Next (set_data self d) (after (spec_step self f month t))
       /\ total_amount (after (spec_step self f month t)) = charged + dividend
       /\ total_invested (after (spec_step self f month t))
          = total_invested t + monthly_contribution self.
Proof.
  intros [Hm Hy] Hf Hmonth. cbv zeta. split; [ring |].
  unfold month_body. unfold growth_factor in Hf. rewrite Hf, Hm.
  destruct (list_get_month_name month Hmonth) as [m ->].
  eexists. split; [| split].
  - unfold spec_step. cbn [after].
    set (x := total_amount t + monthly_contribution self).
    replace (x + x * (f - 1)) with (x * f) by ring.
    reflexivity.
  - unfold spec_step. cbn [after total_amount].
    set (x := total_amount t + monthly_contribution self).
    replace (x + x * (f - 1)) with (x * f) by ring.
    reflexivity.
  - reflexivity.
Qed.

Lemma month_body_applies_the_four_steps_witness :
  let f := Rpower (1 + 10 / 100) (1 / 12) in
  let t := initial_totals pea in
  let contributed := total_amount t + monthly_contribution pea in
  let grown := contributed + contributed * (f - 1) in
  let fee := grown * (management_fee pea / 100) / 4 in
  let charged := grown - fee in
  let dividend := charged * dividend_yield pea in
  grown = contributed * f
  /\ exists d,
       month_body 1 12 pea t = Next (set_data pea d) (after (spec_step pea f 12 t))
       /\ total_amount (after (spec_step pea f 12 t)) = charged + dividend
       /\ total_invested (after (spec_step pea f 12 t))
          = total_invested t + monthly_contribution pea.
Proof.
  apply (month_body_applies_the_four_steps pea 1 12 (initial_totals pea)
           (Rpower (1 + 10 / 100) (1 / 12))).
  - split; reflexivity.
  - apply py_pow_pos. cbn. lra.
  - lia.
Defined.

(** *** Rounding at emission only *)

(** C5.  After a call on a reachable account with a real growth factor, the
    [i]-th record, for every month [i] of the horizon, is [emitted] of the
    [i]-th month of the unrounded run: each field is [round2] of the exact
    running value.  The totals that the loops carry from month to month are
    those of [totals_after], which never pass through [round2]. *)
Theorem records_round_the_unrounded_run
    (self : InvestmentAccount) (f : R) (years : Z) (i : nat) :
  reachable self -> growth_factor self = Some f ->
  (Z.of_nat i < 12 * years)%Z ->
  nth_error (data (fst (simulate self years))) i
  = Some (label_at i,
          let before := totals_after self f i in
          let m := spec_step self f (month_of i) before in
          mkRow (round2 (total_amount (after m)))
                (round2 (total_invested (after m)))
                (round2 (total_amount (after m) - total_invested (after m)))
                (round2 (total_fees (after m)))
                (round2 (total_fees_cumulative (after m)))
                (round2 (market_change m))
                (round2 (dividend_paid m))
                (round2 (monthly_contribution self)))
  /\ exists self',
       for_each (range 1 (years + 1))
                (fun year => for_each (range 1 13) (month_body year))
                self (initial_totals self)
       = Next self' (totals_after self f (12 * Z.to_nat years)).
Proof.
  intros Hr Hf Hi. split.
  - now rewrite (simulate_nth self f years i Hr Hf Hi).
  - pose proof (years_loop self f (Z.to_nat years) (data self)
                  (reachable_well_formed self Hr) Hf) as H.
    rewrite set_data_data in H. rewrite range_years, H. eexists. reflexivity.
Qed.

Lemma records_round_the_unrounded_run_witness :
  let f := Rpower (1 + 10 / 100) (1 / 12) in
  nth_error (data (fst (simulate assurance_vie 30))) 359
  = Some (label_at 359,
          let before := totals_after assurance_vie f 359 in
          let m := spec_step assurance_vie f (month_of 359) before in
          mkRow (round2 (total_amount (after m)))
                (round2 (total_invested (after m)))
                (round2 (total_amount (after m) - total_invested (after m)))
                (round2 (total_fees (after m)))
                (round2 (total_fees_cumulative (after m)))
                (round2 (market_change m))
                (round2 (dividend_paid m))
                (round2 (monthly_contribution assurance_vie)))
  /\ exists self',
       for_each (range 1 (30 + 1))
                (fun year => for_each (range 1 13) (month_body year))
                assurance_vie (initial_totals assurance_vie)
       = Next self' (totals_after assurance_vie f (12 * Z.to_nat 30)).
Proof.
  apply (records_round_the_unrounded_run assurance_vie
           (Rpower (1 + 10 / 100) (1 / 12)) 30 359).
  - apply reach_init.
  - apply py_pow_pos. cbn. lra.
  - lia.
Defined.

(** *** Dividends *)

(** C6.  In the ledger of a reachable account, after any call of [simulate],
    the column "Dividendes versés" is zero in every record that is not the
    twelfth of its block of twelve; in the twelfth it is the rounded product
    of the dividend yield and the balance after contribution, growth and
    fee. *)
Theorem dividend_only_in_december
    (self : InvestmentAccount) (years : Z) (i : nat) (l : string) (r : Row) :
  reachable self ->
  nth_error (data (fst (simulate self years))) i = Some (l, r) ->
  ((i mod 12)%nat <> 11%nat -> dividendes_verses r = 0)
  /\ ((i mod 12)%nat = 11%nat ->
      exists f, growth_factor self = Some f
      /\ let before := totals_after self f i in
         let grown := (total_amount before + monthly_contribution self) * f in
         let fee := grown * (management_fee self / 100) / 4 in
         dividendes_verses r = round2 ((grown - fee) * dividend_yield self)).
Proof.
  intros Hr Hn.
  apply (reachable_rows _ i l r (reach_simulate self years Hr)) in Hn.
  destruct Hn as [f [Hf [_ ->]]].
  destruct (simulate_writes_frame self years) as [d E]. rewrite E in Hf |- *.
  change (growth_factor (set_data self d)) with (growth_factor self) in Hf.
  rewrite (emitted_configuration (set_data self d) self f i eq_refl).
  unfold month_at, month_of, spec_step.
  cbn [emitted dividendes_verses dividend_paid].
  split; intros Hi.
  - destruct (Z.eqb_spec (Z.of_nat (i mod 12) + 1) 12) as [E12 | _]; [lia |].
    apply round2_0.
  - exists f. split; [exact Hf |]. cbv zeta. rewrite Hi.
    reflexivity.
Qed.

Lemma dividend_only_in_december_witness :
  let f := Rpower (1 + 10 / 100) (1 / 12) in
  let r := emitted assurance_vie (month_at assurance_vie f 11) in
  ((11 mod 12)%nat <> 11%nat -> dividendes_verses r = 0)
  /\ ((11 mod 12)%nat = 11%nat ->
      exists f, growth_factor assurance_vie = Some f
      /\ let before := totals_after assurance_vie f 11 in
         let grown :=
           (total_amount before + monthly_contribution assurance_vie) * f in
         let fee := grown * (management_fee assurance_vie / 100) / 4 in
         dividendes_verses r
         = round2 ((grown - fee) * dividend_yield assurance_vie)).
Proof.
  apply (dividend_only_in_december assurance_vie 1 11 (label_at 11)).
  - apply reach_init.
  - apply simulate_nth.
    + apply reach_init.
    + apply py_pow_pos. cbn. lra.
    + lia.
Defined.

(** *** Evaluating a run month by month *)

Lemma totals_after_S (self : InvestmentAccount) (f : R) (k : nat) :
  totals_after self f (S k)
  = after (spec_step self f (month_of k) (totals_after self f k)).
Proof. reflexivity. Qed.

Ltac month_tests :=
  repeat match goal with
  | |- context [Z.eqb ?a ?b] =>
      let v := eval vm_compute in (Z.eqb a b) in change (Z.eqb a b) with v
  end;
  cbv iota.

Ltac next_totals H :=
  rewrite totals_after_S, H; unfold spec_step, month_of;
  cbn [after total_amount total_invested total_fees total_fees_cumulative
       total_dividends start_amount management_fee market_growth
       dividend_yield monthly_contribution
       fee_example withdrawal_example __init__];
  month_tests; f_equal; lra.

Lemma fee_example_april :
  totals_after fee_example 1 4 = mkTotals 9900 10000 100 100 0.
Proof.
  assert (T0 : totals_after fee_example 1 0 = mkTotals 10000 10000 0 0 0)
    by reflexivity.
  assert (T1 : totals_after fee_example 1 1 = mkTotals 10000 10000 0 0 0)
    by next_totals T0.
  assert (T2 : totals_after fee_example 1 2 = mkTotals 10000 10000 0 0 0)
    by next_totals T1.
  assert (T3 : totals_after fee_example 1 3 = mkTotals 9900 10000 100 100 0)
    by next_totals T2.
  next_totals T3.
Qed.

Lemma round2_integer (z : Z) : round2 (IZR z) = IZR z.
Proof.
  replace (IZR z) with (IZR (z * 100) / 100) by (rewrite mult_IZR; lra).
  apply round2_cents.
Qed.

(** *** The fee column in a month without fee *)

(** C2, on the code.  An account of 10000 with a 4% annual fee and no growth
    is charged 100 in March.  In April no fee is charged, yet the April
    record shows 100 under "Frais de gestion": the column holds the running
    sum [total_fees], not the fee of the month. *)
Theorem april_record_shows_the_march_fee :
  fee_charged (month_at fee_example 1 3) = 0
  /\ exists r,
       nth_error (data (fst (simulate fee_example 1))) 3 = Some ("Avril 2025", r)
       /\ frais_de_gestion r = 100.
Proof.
  split.
  - unfold month_at, spec_step, month_of. cbn [fee_charged]. now month_tests.
  - eexists. split.
    + rewrite (simulate_nth fee_example 1 1 3);
        [reflexivity | apply reach_init | now apply growth_factor_zero | lia].
    + cbn [emitted frais_de_gestion]. unfold month_at.
      rewrite <- totals_after_S, fee_example_april. cbn [total_fees].
      apply round2_integer.
Qed.

(** *** The length of the ledger *)

Lemma ledger_length_after_simulate (self : InvestmentAccount) (years : Z) :
  reachable self -> 0 <= 1 + market_growth self -> (1 <= years)%Z ->
  Z.of_nat (List.length (data (fst (simulate self years))))
  = Z.max (Z.of_nat (List.length (data self))) (12 * years).
Proof.
  intros Hr Hg Hy.
  destruct (growth_factor_real self Hg) as [f [Hf _]].
  destruct (simulate_ledger self f years Hr Hf) as [k [E1 E2]].
  rewrite E1, E2, !ledger_length. lia.
Qed.

(** C4, as the code has it.  For a reachable account whose growth factor is
    real ([market_growth >= -1]) and a horizon of at least one year, the
    ledger after the call has [12 * years] records or as many as it had
    before, whichever is more: exactly [12 * years] on a new account, while a
    later call with a shorter horizon overwrites the first records in place
    and removes none. *)
Theorem simulate_ledger_length (self : InvestmentAccount) (years : Z) :
  reachable self -> 0 <= 1 + market_growth self -> (1 <= years)%Z ->
  Z.of_nat (List.length (data (fst (simulate self years))))
  = Z.max (Z.of_nat (List.length (data self))) (12 * years).
Proof. exact (ledger_length_after_simulate self years). Qed.

Lemma simulate_ledger_length_witness :
  Z.of_nat (List.length (data (fst (simulate pea 30))))
  = Z.max (Z.of_nat (List.length (data pea))) (12 * 30).
Proof.
  apply (simulate_ledger_length pea 30).
  - apply reach_init.
  - cbn. lra.
  - lia.
Defined.

(** C4, as stated, fails twice.  After [simulate(2)], a call [simulate(1)]
    leaves 24 records, not 12; and with a growth rate of -200% the first
    month raises [TypeError] and the ledger stays empty. *)
Lemma ledger_length_is_not_always_twelve_per_year :
  List.length (data (fst (simulate (fst (simulate pea 2)) 1))) = 24%nat
  /\ simulate crash_example 1 = (crash_example, Some TypeError).
Proof.
  split.
  - apply Nat2Z.inj.
    rewrite ledger_length_after_simulate;
      [| apply reach_simulate, reach_init | | lia].
    + rewrite ledger_length_after_simulate; [reflexivity | apply reach_init | | lia].
      cbn. lra.
    + destruct (simulate_writes_frame pea 2) as [d ->]. cbn. lra.
  - rewrite simulate_complex; [reflexivity |].
    apply py_pow_neg. cbn. lra.
Qed.

(** *** The principal of the final record *)

Lemma last_row_ledger (self : InvestmentAccount) (f : R) (n : nat) :
  last_row (ledger self f (S n)) = Some (emitted self (month_at self f n)).
Proof.
  unfold last_row. now rewrite ledger_S, rev_unit.
Qed.

Lemma final_principal (self : InvestmentAccount) (years : Z) :
  reachable self -> data self = [] ->
  0 <= 1 + market_growth self -> (1 <= years)%Z ->
  option_map somme_totale_investie (last_row (data (fst (simulate self years))))
  = Some (round2 (Nat.iter (12 * Z.to_nat years)
                    (fun total => total + monthly_contribution self)
                    (start_amount self))).
Proof.
  intros Hr Hd Hg Hy.
  destruct (growth_factor_real self Hg) as [f [Hf _]].
  destruct (simulate_ledger self f years Hr Hf) as [k [E1 E2]].
  rewrite Hd in E1. symmetry in E1.
  apply (f_equal (@List.length _)) in E1. rewrite ledger_length in E1.
  cbn [List.length] in E1.
  rewrite E2. replace (Nat.max k (Z.to_nat years)) with (Z.to_nat years) by lia.
  destruct (12 * Z.to_nat years)%nat as [| m] eqn:Em; [lia |].
  rewrite last_row_ledger. cbn [option_map emitted somme_totale_investie].
  unfold month_at. now rewrite <- totals_after_S, total_invested_running_sum.
Qed.

(** C7, as the code has it.  On a new account whose growth factor is real,
    after [simulate(years)] with [years >= 1], the column "Somme totale
    investie" of the final record is the rounding to two decimals of the
    running sum that starts at [start_amount] and receives the contribution
    [c] once per month, [12 * years] times, whatever the fee, the growth and
    the dividend yield. *)
Theorem final_principal_is_the_rounded_running_sum
    (n : string) (s fee g dy c : R) (years : Z) :
  0 <= 1 + g -> (1 <= years)%Z ->
  option_map somme_totale_investie
    (last_row (data (fst (simulate (__init__ n s fee g dy c) years))))
  = Some (round2 (Nat.iter (12 * Z.to_nat years) (fun total => total + c) s)).
Proof.
  intros Hg Hy.
  apply (final_principal (__init__ n s fee g dy c) years);
    [apply reach_init | reflexivity | exact Hg | exact Hy].
Qed.

Lemma final_principal_is_the_rounded_running_sum_witness :
  option_map somme_totale_investie
    (last_row (data (fst (simulate
       (__init__ "PEA" 5000 0 (10 / 100) (159 / 10000) (600 - 2)) 30))))
  = Some (round2 (Nat.iter (12 * Z.to_nat 30)
                    (fun total => total + (600 - 2)) 5000)).
Proof.
  apply (final_principal_is_the_rounded_running_sum
           "PEA" 5000 0 (10 / 100) (159 / 10000) (600 - 2) 30).
  - lra.
  - lia.
Defined.

Lemma round_half_even_down (z : Z) (x : R) :
  IZR z <= x < IZR z + 1 / 2 -> round_half_even x = z.
Proof.
  intros H. unfold round_half_even.
  replace (Int_part x) with z by (apply Int_part_spec; lra).
  destruct (Rlt_dec (x - IZR z) (1 / 2)) as [_ | Hn]; [reflexivity | lra].
Qed.

(** C7, as stated, fails twice: with no fee and a monthly contribution of
    0.001, the final record of one year shows a principal of 0.01, not 0.012;
    and with no fee and a growth rate of -200% there is no final record. *)
Lemma final_principal_of_thousandths :
  (management_fee thousandth_example = 0
   /\ option_map somme_totale_investie
        (last_row (data (fst (simulate thousandth_example 1))))
      = Some (1 / 100)
   /\ 1 / 100
      <> start_amount thousandth_example
         + monthly_contribution thousandth_example * 12 * 1)
  /\ (management_fee crash_example = 0
      /\ last_row (data (fst (simulate crash_example 1))) = None).
Proof.
  split; [split; [reflexivity | split] | split; [reflexivity |]].
  - rewrite final_principal; [| apply reach_init | reflexivity | cbn; lra | lia].
    f_equal. change (12 * Z.to_nat 1)%nat with 12%nat.
    cbn [Nat.iter nat_rect thousandth_example __init__ start_amount
         monthly_contribution].
    unfold round2. rewrite (round_half_even_down 1); lra.
  - cbn. lra.
  - rewrite simulate_complex; [reflexivity |].
    apply py_pow_neg. cbn. lra.
Qed.

(** *** Month-over-month balance *)

(** Without fee, with a growth factor of at least one and a non-negative
    contribution and yield, a non-negative balance does not go down in a
    month. *)
Lemma balance_step (self : InvestmentAccount) (f : R) (month : Z) (t : Totals) :
  management_fee self = 0 -> 0 <= monthly_contribution self ->
  0 <= dividend_yield self -> 1 <= f -> 0 <= total_amount t ->
  total_amount t <= total_amount (after (spec_step self f month t)).
Proof.
  intros Hfee Hc Hdy Hf Ht. unfold spec_step. cbn [after total_amount].
  rewrite Hfee.
  set (x := total_amount t + monthly_contribution self).
  assert (Hx : total_amount t <= x) by (unfold x; lra).
  assert (Hg : x <= x * f) by nra.
  assert (Hfee0 : (if (month mod 3 =? 0)%Z then x * f * (0 / 100) / 4 else 0) = 0)
    by (destruct (month mod 3 =? 0)%Z; lra).
  rewrite Hfee0.
  destruct (month =? 12)%Z; [| lra].
  assert (0 <= (x * f - 0) * dividend_yield self) by (apply Rmult_le_pos; lra).
  lra.
Qed.

Lemma balance_non_negative (self : InvestmentAccount) (f : R) (n : nat) :
  management_fee self = 0 -> 0 <= monthly_contribution self ->
  0 <= dividend_yield self -> 1 <= f -> 0 <= start_amount self ->
  0 <= total_amount (totals_after self f n).
Proof.
  intros Hfee Hc Hdy Hf Hs. induction n as [| n IH]; [exact Hs |].
  rewrite totals_after_S.
  pose proof (balance_step self f (month_of n) _ Hfee Hc Hdy Hf IH). lra.
Qed.

Lemma growth_factor_ge_1 (self : InvestmentAccount) (f : R) :
  0 <= market_growth self -> growth_factor self = Some f -> 1 <= f.
Proof.
  intros Hg Hf.
  destruct (py_pow_ge_1 (1 + market_growth self) (1 / 12)) as [f' [E H]];
    try lra.
  unfold growth_factor in Hf. congruence.
Qed.

(** C8, as the code has it.  For a reachable account with no management fee,
    a non-negative market growth and, besides, a non-negative initial
    deposit, monthly contribution and dividend yield, the column "Somme
    totale" does not decrease from any record of the ledger to the next. *)
Theorem balance_never_decreases
    (self : InvestmentAccount) (years : Z) (i : nat)
    (l1 l2 : string) (r1 r2 : Row) :
  reachable self ->
  management_fee self = 0 -> 0 <= market_growth self ->
  0 <= start_amount self -> 0 <= monthly_contribution self ->
  0 <= dividend_yield self ->
  nth_error (data (fst (simulate self years))) i = Some (l1, r1) ->
  nth_error (data (fst (simulate self years))) (S i) = Some (l2, r2) ->
  somme_totale r1 <= somme_totale r2.
Proof.
  intros Hr Hfee Hg Hs Hc Hdy H1 H2.
  pose proof (reach_simulate self years Hr) as Hr'.
  apply (reachable_rows _ _ _ _ Hr') in H1. destruct H1 as [f [Hf [_ ->]]].
  apply (reachable_rows _ _ _ _ Hr') in H2. destruct H2 as [f' [Hf' [_ ->]]].
  assert (f' = f) by congruence. subst f'. clear Hf'.
  destruct (simulate_writes_frame self years) as [d E]. rewrite E in Hf |- *.
  change (growth_factor (set_data self d)) with (growth_factor self) in Hf.
  rewrite !(emitted_configuration (set_data self d) self f _ eq_refl).
  cbn [emitted somme_totale]. unfold month_at. rewrite <- !totals_after_S.
  apply round2_mono.
  pose proof (growth_factor_ge_1 self f Hg Hf) as H1f.
  rewrite (totals_after_S self f (S i)).
  apply balance_step; try assumption.
  now apply balance_non_negative.
Qed.

Lemma balance_never_decreases_witness :
  let f := Rpower (1 + 10 / 100) (1 / 12) in
  somme_totale (emitted pea (month_at pea f 10))
  <= somme_totale (emitted pea (month_at pea f 11)).
Proof.
  assert (Hf : growth_factor pea = Some (Rpower (1 + 10 / 100) (1 / 12)))
    by (apply py_pow_pos; cbn; lra).
  apply (balance_never_decreases pea 1 10 (label_at 10) (label_at 11)).
  - apply reach_init.
  - reflexivity.
  - cbn. lra.
  - cbn. lra.
  - cbn. lra.
  - cbn. lra.
  - apply simulate_nth; [apply reach_init | exact Hf | lia].
  - apply simulate_nth; [apply reach_init | exact Hf | lia].
Defined.

Lemma withdrawal_example_february :
  totals_after withdrawal_example 1 1 = mkTotals 99 99 0 0 0
  /\ totals_after withdrawal_example 1 2 = mkTotals 98 98 0 0 0.
Proof.
  assert (T0 : totals_after withdrawal_example 1 0 = mkTotals 100 100 0 0 0)
    by reflexivity.
  assert (T1 : totals_after withdrawal_example 1 1 = mkTotals 99 99 0 0 0)
    by next_totals T0.
  split; [exact T1 | next_totals T1].
Qed.

(** C8, as stated, fails: with no fee and no growth, a monthly contribution
    of -1 brings the balance of 100 to 99 in January and to 98 in
    February. *)
Lemma withdrawals_lower_the_balance :
  management_fee withdrawal_example = 0
  /\ 0 <= market_growth withdrawal_example
  /\ exists r1 r2,
       nth_error (data (fst (simulate withdrawal_example 1))) 0
       = Some ("Janvier 2025", r1)
       /\ nth_error (data (fst (simulate withdrawal_example 1))) 1
          = Some ("Février 2025", r2)
       /\ somme_totale r1 = 99 /\ somme_totale r2 = 98
       /\ somme_totale r2 < somme_totale r1.
Proof.
  destruct withdrawal_example_february as [T1 T2].
  assert (Hf : growth_factor withdrawal_example = Some 1)
    by now apply growth_factor_zero.
  assert (V1 : somme_totale (emitted withdrawal_example
                               (month_at withdrawal_example 1 0)) = 99).
  { cbn [emitted somme_totale]. unfold month_at.
    rewrite <- totals_after_S, T1. apply round2_integer. }
  assert (V2 : somme_totale (emitted withdrawal_example
                               (month_at withdrawal_example 1 1)) = 98).
  { cbn [emitted somme_totale]. unfold month_at.
    rewrite <- totals_after_S, T2. apply round2_integer. }
  split; [reflexivity | split; [cbn; lra |]].
  do 2 eexists. split; [| split; [| split; [exact V1 | split; [exact V2 |]]]].
  - rewrite (simulate_nth withdrawal_example 1 1 0);
      [reflexivity | apply reach_init | exact Hf | lia].
  - rewrite (simulate_nth withdrawal_example 1 1 1);
      [reflexivity | apply reach_init | exact Hf | lia].
  - rewrite V1, V2. lra.
Qed.

(** * Further properties of the engine *)

(** ** Exceptions *)

(** X1.  On a reachable account [simulate] raises only when the horizon is at
    least one year and the growth rate is below -100%: then it raises
    [TypeError] in the first month and the account is left as it was.  In
    every other case it returns normally; it never raises [IndexError]. *)
Theorem simulate_raises_only_on_complex_growth (self : InvestmentAccount) (years : Z) :
  reachable self ->
  (1 + market_growth self < 0 -> (1 <= years)%Z ->
   simulate self years = (self, Some TypeError))
  /\ (0 <= 1 + market_growth self \/ (years < 1)%Z ->
      snd (simulate self years) = None).
Proof.
  intros Hr. split.
  - intros Hg Hy. rewrite simulate_complex by (now apply py_pow_neg).
    destruct (Z.leb_spec 1 years); [reflexivity | lia].
  - intros [Hg | Hy].
    + destruct (growth_factor_real self Hg) as [f [Hf _]].
      now rewrite (simulate_real self f years (reachable_well_formed self Hr) Hf).
    + now rewrite simulate_empty_range.
Qed.

Lemma simulate_raises_only_on_complex_growth_witness :
  (1 + market_growth crash_example < 0 -> (1 <= 1)%Z ->
   simulate crash_example 1 = (crash_example, Some TypeError))
  /\ (0 <= 1 + market_growth crash_example \/ (1 < 1)%Z ->
      snd (simulate crash_example 1) = None).
Proof.
  apply (simulate_raises_only_on_complex_growth crash_example 1).
  apply reach_init.
Defined.

(** ** Calling [simulate] again *)

Lemma simulate_growth_factor (self : InvestmentAccount) (years : Z) :
  growth_factor (fst (simulate self years)) = growth_factor self.
Proof.
  destruct (simulate_writes_frame self years) as [d ->]. reflexivity.
Qed.

(** X2.  On a reachable account, two calls in a row leave the account that
    one call with the longer of the two horizons leaves; in particular a
    second call with the same horizon changes nothing. *)
Theorem simulate_twice_is_simulate_longest (self : InvestmentAccount) (y1 y2 : Z) :
  reachable self ->
  fst (simulate (fst (simulate self y1)) y2) = fst (simulate self (Z.max y1 y2)).
Proof.
  intros Hr.
  pose proof (reach_simulate self y1 Hr) as Hr1.
  destruct (growth_factor self) as [f |] eqn:Hf.
  - assert (Hf1 : growth_factor (fst (simulate self y1)) = Some f)
      by now rewrite simulate_growth_factor.
    destruct (simulate_ledger self f y1 Hr Hf) as [k [E0 E1]].
    destruct (simulate_ledger self f (Z.max y1 y2) Hr Hf) as [k' [E0' E']].
    destruct (simulate_ledger _ f y2 Hr1 Hf1) as [k1 [E1' E2]].
    assert (Hk' : k' = k).
    { rewrite E0 in E0'. apply (f_equal (@List.length _)) in E0'.
      rewrite !ledger_length in E0'. lia. }
    subst k'.
    destruct (simulate_writes_frame (fst (simulate self y1)) y2) as [d2 Ed2].
    destruct (simulate_writes_frame self y1) as [d1 Ed1].
    destruct (simulate_writes_frame self (Z.max y1 y2)) as [d Ed].
    rewrite Ed2 in E2 |- *. rewrite Ed1 in E1, E1', E2 |- *.
    rewrite Ed in E' |- *. cbn [data set_data] in *.
    assert (Hk1 : k1 = Nat.max k (Z.to_nat y1)).
    { rewrite E1 in E1'. apply (f_equal (@List.length _)) in E1'.
      rewrite !ledger_length in E1'. lia. }
    subst k1.
    rewrite (ledger_configuration (set_data self d1) self) in E2 by reflexivity.
    rewrite E2, E'.
    replace (Nat.max (Nat.max k (Z.to_nat y1)) (Z.to_nat y2))
      with (Nat.max k (Z.to_nat (Z.max y1 y2))) by lia.
    reflexivity.
  - rewrite (simulate_complex self y1 Hf). cbn [fst].
    rewrite (simulate_complex self y2 Hf).
    now rewrite (simulate_complex self (Z.max y1 y2) Hf).
Qed.

Lemma simulate_twice_is_simulate_longest_witness :
  fst (simulate (fst (simulate pea 30)) 10) = fst (simulate pea (Z.max 30 10)).
Proof.
  apply (simulate_twice_is_simulate_longest pea 30 10). apply reach_init.
Defined.

(** ** Labels *)

Lemma ledger_labels_NoDup (self : InvestmentAccount) (f : R) (n : nat) :
  NoDup (map fst (ledger self f n)).
Proof.
  unfold ledger. rewrite map_map. cbn [fst].
  apply NoDup_map_NoDup_ForallPairs; [| apply seq_NoDup].
  intros i j _ _. apply label_at_inj.
Qed.

(** X3.  The labels of the ledger of a reachable account are pairwise
    distinct: no month is recorded twice. *)
Theorem ledger_labels_are_unique (self : InvestmentAccount) :
  reachable self -> NoDup (map fst (get_data self)).
Proof.
  intros Hr. unfold get_data.
  destruct (reachable_ledger self Hr) as [k ->].
  destruct (growth_factor self) as [f |].
  - apply ledger_labels_NoDup.
  - constructor.
Qed.

Lemma ledger_labels_are_unique_witness :
  NoDup (map fst (get_data (fst (simulate assurance_vie 30)))).
Proof.
  apply (ledger_labels_are_unique (fst (simulate assurance_vie 30))).
  apply reach_simulate, reach_init.
Defined.

(** X4.  The ledger of a reachable account holds whole years in
    chronological order: its length is a multiple of 12, and its [i]-th
    record carries the name of month [i mod 12] and the year
    [2025 + i / 12]. *)
Theorem ledger_is_chronological
    (self : InvestmentAccount) (i : nat) (l : string) (r : Row) :
  reachable self ->
  nth_error (get_data self) i = Some (l, r) ->
  (List.length (get_data self) mod 12 = 0)%nat
  /\ l = nth (i mod 12) MONTHS "" ++ " " ++ str (2025 + Z.of_nat (i / 12)).
Proof.
  intros Hr Hn. unfold get_data in *. split.
  - destruct (reachable_ledger self Hr) as [k ->].
    destruct (growth_factor self) as [f |]; [| reflexivity].
    rewrite ledger_length, Nat.mul_comm. apply Nat.Div0.mod_mul.
  - apply (reachable_rows self i l r Hr) in Hn.
    now destruct Hn as [f [_ [-> _]]].
Qed.

Lemma ledger_is_chronological_witness :
  (List.length (get_data (fst (simulate pea 2))) mod 12 = 0)%nat
  /\ "Février 2026"
     = nth (13 mod 12) MONTHS "" ++ " " ++ str (2025 + Z.of_nat (13 / 12)).
Proof.
  apply (ledger_is_chronological (fst (simulate pea 2)) 13 "Février 2026"
           (emitted pea (month_at pea (Rpower (1 + 10 / 100) (1 / 12)) 13))).
  - apply reach_simulate, reach_init.
  - unfold get_data. rewrite (simulate_nth pea (Rpower (1 + 10 / 100) (1 / 12)) 2 13);
      [reflexivity | apply reach_init | apply py_pow_pos; cbn; lra | lia].
Defined.

(** ** Horizons *)

Lemma ledger_firstn (self : InvestmentAccount) (f : R) (n m : nat) :
  (n <= m)%nat -> firstn n (ledger self f m) = ledger self f n.
Proof.
  intros H. unfold ledger. rewrite firstn_map. f_equal.
  replace m with (n + (m - n))%nat by lia.
  rewrite seq_app, firstn_app, length_seq, Nat.sub_diag, firstn_O, app_nil_r.
  apply firstn_all2. rewrite length_seq. lia.
Qed.

(** X5.  On a new account a longer horizon only adds records: the ledger of
    [simulate(y1)] is the first [12 * y1] records of the ledger of
    [simulate(y2)] whenever [y1 <= y2]. *)
Theorem shorter_horizon_is_a_prefix
    (n : string) (s fee g dy c : R) (y1 y2 : Z) :
  (y1 <= y2)%Z ->
  firstn (12 * Z.to_nat y1)
         (get_data (fst (simulate (__init__ n s fee g dy c) y2)))
  = get_data (fst (simulate (__init__ n s fee g dy c) y1)).
Proof.
  intros Hy. unfold get_data. set (a := __init__ n s fee g dy c).
  assert (Hr : reachable a) by apply reach_init.
  destruct (growth_factor a) as [f |] eqn:Hf.
  - destruct (simulate_ledger a f y1 Hr Hf) as [k [E0 ->]].
    destruct (simulate_ledger a f y2 Hr Hf) as [k' [E0' ->]].
    assert (k = O /\ k' = O) as [-> ->].
    { cbn [a data __init__] in E0, E0'.
      apply (f_equal (@List.length _)) in E0, E0'.
      rewrite ledger_length in E0, E0'. cbn in E0, E0'. lia. }
    cbn [Nat.max]. apply ledger_firstn. lia.
  - rewrite !simulate_complex by exact Hf. cbn. now rewrite firstn_nil.
Qed.

Lemma shorter_horizon_is_a_prefix_witness :
  firstn (12 * Z.to_nat 10)
         (get_data (fst (simulate
            (__init__ "Assurance Vie" 5000 (75 / 100) (10 / 100) (159 / 10000) 600)
            30)))
  = get_data (fst (simulate
      (__init__ "Assurance Vie" 5000 (75 / 100) (10 / 100) (159 / 10000) 600)
      10)).
Proof.
  apply (shorter_horizon_is_a_prefix
           "Assurance Vie" 5000 (75 / 100) (10 / 100) (159 / 10000) 600 10 30).
  lia.
Defined.

(** ** The columns *)

(** X6.  In the [i]-th record of a reachable account the column "Somme
    totale investie" is the rounding to two decimals of the running sum that
    starts at the initial deposit and has received the contribution [i + 1]
    times: growth, fees and dividends never touch it. *)
Theorem principal_column_counts_contributions
    (self : InvestmentAccount) (i : nat) (l : string) (r : Row) :
  reachable self ->
  nth_error (get_data self) i = Some (l, r) ->
  somme_totale_investie r
  = round2 (Nat.iter (S i) (fun total => total + monthly_contribution self)
                     (start_amount self)).
Proof.
  intros Hr Hn. apply (reachable_rows self i l r Hr) in Hn.
  destruct Hn as [f [_ [_ ->]]].
  cbn [emitted somme_totale_investie]. unfold month_at.
  now rewrite <- totals_after_S, total_invested_running_sum.
Qed.

Lemma principal_column_counts_contributions_witness :
  somme_totale_investie
    (emitted pea (month_at pea (Rpower (1 + 10 / 100) (1 / 12)) 13))
  = round2 (Nat.iter 14
              (fun total => total + monthly_contribution (fst (simulate pea 2)))
              (start_amount (fst (simulate pea 2)))).
Proof.
  apply (principal_column_counts_contributions (fst (simulate pea 2)) 13
           "Février 2026").
  - apply reach_simulate, reach_init.
  - unfold get_data. rewrite (simulate_nth pea (Rpower (1 + 10 / 100) (1 / 12)) 2 13);
      [reflexivity | apply reach_init | apply py_pow_pos; cbn; lra | lia].
Defined.

Lemma round2_near (x : R) : round2 x - 1 / 200 <= x <= round2 x + 1 / 200.
Proof.
  unfold round2. pose proof (round_half_even_near (x * 100)). lra.
Qed.




(** ** Fees *)

(** With non-negative amounts and a fee of at most 400% a year, a month
    keeps the balance non-negative and charges a non-negative fee. *)
Lemma fee_step (self : InvestmentAccount) (f : R) (month : Z) (t : Totals) :
  0 <= management_fee self <= 400 -> 0 <= monthly_contribution self ->
  0 <= dividend_yield self -> 0 <= f -> 0 <= total_amount t ->
  0 <= total_amount (after (spec_step self f month t))
  /\ total_fees_cumulative t
     <= total_fees_cumulative (after (spec_step self f month t)).
Proof.
  intros Hq Hc Hdy Hf Ht. unfold spec_step.
  cbn [after total_amount total_fees_cumulative].
  set (x := (total_amount t + monthly_contribution self) * f).
  assert (Hx : 0 <= x) by (apply Rmult_le_pos; lra).
  assert (Hfee : 0 <= x * (management_fee self / 100) / 4 <= x) by nra.
  destruct (month mod 3 =? 0)%Z.
  - destruct (month =? 12)%Z; split; try lra.
    assert (0 <= (x - x * (management_fee self / 100) / 4) * dividend_yield self)
      by (apply Rmult_le_pos; lra).
    lra.
  - destruct (month =? 12)%Z; split; try lra.
    assert (0 <= (x - 0) * dividend_yield self) by (apply Rmult_le_pos; lra).
    lra.
Qed.

Lemma fee_run (self : InvestmentAccount) (f : R) (n : nat) :
  0 <= management_fee self <= 400 -> 0 <= monthly_contribution self ->
  0 <= dividend_yield self -> 0 <= f -> 0 <= start_amount self ->
  0 <= total_amount (totals_after self f n)
  /\ total_fees_cumulative (totals_after self f n)
     <= total_fees_cumulative (totals_after self f (S n)).
Proof.
  intros Hq Hc Hdy Hf Hs.
  assert (Hpos : forall m, 0 <= total_amount (totals_after self f m)).
  { induction m as [| m IH]; [exact Hs |].
    rewrite totals_after_S. now apply fee_step. }
  split; [apply Hpos |].
  rewrite (totals_after_S self f n). now apply fee_step.
Qed.

(** X10.  For a reachable account with a management fee between 0 and 400%
    a year and a non-negative deposit, contribution and dividend yield, the
    column "Montants totaux de frais de gestion" never decreases from one
    record to the next. *)
Theorem cumulative_fees_never_decrease
    (self : InvestmentAccount) (i : nat) (l1 l2 : string) (r1 r2 : Row) :
  reachable self ->
  0 <= management_fee self <= 400 -> 0 <= start_amount self ->
  0 <= monthly_contribution self -> 0 <= dividend_yield self ->
  nth_error (get_data self) i = Some (l1, r1) ->
  nth_error (get_data self) (S i) = Some (l2, r2) ->
  montants_totaux_de_frais_de_gestion r1
  <= montants_totaux_de_frais_de_gestion r2.
Proof.
  intros Hr Hq Hs Hc Hdy H1 H2.
  apply (reachable_rows self _ _ _ Hr) in H1. destruct H1 as [f [Hf [_ ->]]].
  apply (reachable_rows self _ _ _ Hr) in H2. destruct H2 as [f' [Hf' [_ ->]]].
  assert (f' = f) by congruence. subst f'.
  assert (H0f : 0 <= f).
  { unfold growth_factor, py_pow in Hf.
    destruct (Rlt_dec 0 (1 + market_growth self)).
    - injection Hf as <-. left. apply exp_pos.
    - destruct (Rlt_dec (1 + market_growth self) 0); [discriminate |].
      injection Hf as <-. lra. }
  cbn [emitted montants_totaux_de_frais_de_gestion]. unfold month_at.
  rewrite <- !totals_after_S. apply round2_mono.
  now apply fee_run.
Qed.

Lemma cumulative_fees_never_decrease_witness :
  let f := Rpower (1 + 10 / 100) (1 / 12) in
  montants_totaux_de_frais_de_gestion
    (emitted assurance_vie (month_at assurance_vie f 1))
  <= montants_totaux_de_frais_de_gestion
       (emitted assurance_vie (month_at assurance_vie f 2)).
Proof.
  assert (Hf : growth_factor assurance_vie = Some (Rpower (1 + 10 / 100) (1 / 12)))
    by (apply py_pow_pos; cbn; lra).
  assert (E : fst (simulate assurance_vie 1)
              = set_data assurance_vie (data (fst (simulate assurance_vie 1))))
    by (destruct (simulate_writes_frame assurance_vie 1) as [d ->]; reflexivity).
  apply (cumulative_fees_never_decrease (fst (simulate assurance_vie 1)) 1
           (label_at 1) (label_at 2)).
  - apply reach_simulate, reach_init.
  - rewrite E. cbn. lra.
  - rewrite E. cbn. lra.
  - rewrite E. cbn. lra.
  - rewrite E. cbn. lra.
  - unfold get_data. apply simulate_nth; [apply reach_init | exact Hf | lia].
  - unfold get_data. apply simulate_nth; [apply reach_init | exact Hf | lia].
Defined.

(** ** An account without growth, fee or dividend *)

Lemma idle_totals (self : InvestmentAccount) (n : nat) :
  management_fee self = 0 -> dividend_yield self = 0 ->
  total_amount (totals_after self 1 n) = total_invested (totals_after self 1 n)
  /\ total_fees (totals_after self 1 n) = 0.
Proof.
  intros Hq Hdy. induction n as [| n [IH1 IH2]]; [split; reflexivity |].
  rewrite totals_after_S. unfold spec_step.
  cbn [after total_amount total_invested total_fees]. rewrite Hq, Hdy, IH1, IH2.
  destruct (month_of n mod 3 =? 0)%Z, (month_of n =? 12)%Z; split; lra.
Qed.

(** X11.  With no market growth, no fee and no dividend, every record of a
    reachable account shows a balance equal to the principal, and zero
    profit, zero fees and zero market change: contributions only add up. *)
Theorem idle_account_only_accumulates
    (self : InvestmentAccount) (i : nat) (l : string) (r : Row) :
  reachable self ->
  market_growth self = 0 -> management_fee self = 0 -> dividend_yield self = 0 ->
  nth_error (get_data self) i = Some (l, r) ->
  somme_totale r = somme_totale_investie r
  /\ benefices r = 0 /\ frais_de_gestion r = 0 /\ evolution_du_marche r = 0.
Proof.
  intros Hr Hg Hq Hdy Hn. apply (reachable_rows self i l r Hr) in Hn.
  destruct Hn as [f [Hf [_ ->]]].
  rewrite (growth_factor_zero self Hg) in Hf. injection Hf as <-.
  cbn [emitted somme_totale somme_totale_investie benefices frais_de_gestion
       evolution_du_marche].
  unfold month_at. rewrite <- !totals_after_S.
  destruct (idle_totals self (S i) Hq Hdy) as [E1 E2].
  rewrite E1, E2. split; [reflexivity | split; [| split]].
  - replace (_ - _) with 0 by lra. apply round2_0.
  - apply round2_0.
  - unfold spec_step. cbn [market_change].
    replace (_ * (1 - 1)) with 0 by lra. apply round2_0.
Qed.

Lemma idle_account_only_accumulates_witness :
  let r := emitted savings_example (month_at savings_example 1 5) in
  somme_totale r = somme_totale_investie r
  /\ benefices r = 0 /\ frais_de_gestion r = 0 /\ evolution_du_marche r = 0.
Proof.
  apply (idle_account_only_accumulates (fst (simulate savings_example 1)) 5
           (label_at 5)).
  - apply reach_simulate, reach_init.
  - destruct (simulate_writes_frame savings_example 1) as [d ->]. reflexivity.
  - destruct (simulate_writes_frame savings_example 1) as [d ->]. reflexivity.
  - destruct (simulate_writes_frame savings_example 1) as [d ->]. reflexivity.
  - unfold get_data. apply simulate_nth;
      [apply reach_init | now apply growth_factor_zero | lia].
Defined.

(** * The plotting helpers *)

(** ** Axis ticks *)

Lemma stride_years {B : Type} (g : nat -> B) (a k : nat) :
  stride 12 0 (map g (seq a (12 * k)))
  = map (fun j => g (a + 12 * j)%nat) (seq 0 k).
Proof.
  revert a. induction k as [| k IH]; intros a.
  - reflexivity.
  - replace (12 * S k)%nat with (12 + 12 * k)%nat by lia.
    cbn [Nat.add seq map stride Nat.sub].
    rewrite IH. cbn [seq map]. rewrite Nat.mul_0_r, Nat.add_0_r. f_equal.
    rewrite <- seq_shift, map_map. apply map_ext. intros j.
    f_equal. lia.
Qed.

Lemma label_at_january (j : nat) :
  label_at (12 * j) = "Janvier " ++ str (2025 + Z.of_nat j).
Proof.
  pose proof (label_at_split j 0) as H. rewrite Nat.add_0_r in H.
  rewrite H by lia. reflexivity.
Qed.

(** X12.  For a reachable account the x axis of [plot_investment] gets one
    tick per simulated year, at the positions 0, 12, 24, ..., and the tick of
    year [j] is labelled with its January, "Janvier" followed by
    [2025 + j]; positions and labels are equally many. *)
Theorem xticks_mark_each_january (self : InvestmentAccount) :
  reachable self ->
  let years := (List.length (get_data self) / 12)%nat in
  xticks self
  = (map (fun j => (12 * Z.of_nat j)%Z) (seq 0 years),
     map (fun j => "Janvier " ++ str (2025 + Z.of_nat j)) (seq 0 years)).
Proof.
  intros Hr. cbv zeta. unfold xticks, get_data, slice_step, range.
  destruct (reachable_ledger self Hr) as [k E].
  assert (E' : exists f n, data self = ledger self f (12 * n)).
  { destruct (growth_factor self) as [f |]; [now exists f, k |].
    exists 0, O. exact E. }
  clear k E. destruct E' as [f [k E]]. rewrite E.
  rewrite ledger_length, Nat.mul_comm, Nat.div_mul by discriminate.
  rewrite Nat.mul_comm.
  replace (Z.to_nat (Z.of_nat (12 * k) - 0)) with (12 * k)%nat by lia.
  unfold ledger. rewrite map_map. cbn [fst].
  rewrite !stride_years. f_equal.
  - apply map_ext. intros j. lia.
  - apply map_ext. intros j. apply label_at_january.
Qed.

Lemma xticks_mark_each_january_witness :
  let years := (List.length (get_data (fst (simulate pea 30))) / 12)%nat in
  xticks (fst (simulate pea 30))
  = (map (fun j => (12 * Z.of_nat j)%Z) (seq 0 years),
     map (fun j => "Janvier " ++ str (2025 + Z.of_nat j)) (seq 0 years)).
Proof.
  apply (xticks_mark_each_january (fst (simulate pea 30))).
  apply reach_simulate, reach_init.
Defined.

(** ** The year of the tooltip *)

Lemma append_nil_r (s : string) : s ++ "" = s.
Proof. induction s as [| c s IH]; cbn; [reflexivity | now rewrite IH]. Qed.

Lemma append_snoc (w s : string) (c : ascii) :
  (w ++ String c "") ++ s = w ++ String c s.
Proof. induction w as [| d w IH]; cbn; [reflexivity | now rewrite IH]. Qed.

Lemma split_from_solid (a rest word : string) :
  solid a -> split_from (a ++ rest) word = split_from rest (word ++ a).
Proof.
  unfold solid. revert word. induction a as [| c a IH]; intros word H.
  - cbn. now rewrite append_nil_r.
  - cbn in H. inversion H as [| c' l Hc Ha]; subst.
    cbn [append split_from]. rewrite Hc, IH by exact Ha.
    now rewrite append_snoc.
Qed.

Lemma split_two_words (a b : string) :
  solid a -> solid b -> a <> "" -> b <> "" -> split (a ++ " " ++ b) = [a; b].
Proof.
  intros Ha Hb Na Nb. unfold split.
  rewrite split_from_solid by exact Ha. cbn [append split_from].
  change (is_space " ") with true. cbn iota.
  destruct (String.eqb_spec a "") as [E | _]; [contradiction |].
  rewrite <- (append_nil_r b) at 1.
  rewrite split_from_solid by exact Hb. cbn [append split_from].
  destruct (String.eqb_spec b "") as [E | _]; [contradiction | reflexivity].
Qed.

Lemma digits_solid (d : Decimal.uint) : solid (NilEmpty.string_of_uint d).
Proof.
  unfold solid. induction d; cbn; constructor; (reflexivity || assumption).
Qed.

Lemma str_solid (z : Z) : solid (str z) /\ str z <> "".
Proof.
  unfold str, NilZero.string_of_int, NilZero.string_of_uint.
  destruct (Z.to_int z) as [d | d].
  - destruct d; split;
      try (apply (digits_solid _));
      try (cbn; discriminate);
      unfold solid; cbn; constructor; (reflexivity || constructor).
  - split; [| discriminate].
    unfold solid. cbn. constructor; [reflexivity |].
    destruct d; try (apply (digits_solid _)).
    cbn. constructor; [reflexivity | constructor].
Qed.

Lemma month_name_solid (j : nat) :
  (j < 12)%nat -> solid (nth j MONTHS "") /\ nth j MONTHS "" <> "".
Proof.
  intros Hj.
  do 12 (destruct j as [| j];
         [split; [unfold solid; cbn; repeat constructor | discriminate] |]).
  exfalso. lia.
Qed.

Lemma split_label_at (i : nat) :
  split (label_at i)
  = [nth (i mod 12) MONTHS ""; str (2025 + Z.of_nat (i / 12))].
Proof.
  unfold label_at.
  destruct (month_name_solid (i mod 12)) as [H1 H2];
    [apply Nat.mod_upper_bound; discriminate |].
  destruct (str_solid (2025 + Z.of_nat (i / 12))) as [H3 H4].
  now apply split_two_words.
Qed.

(** X13.  For a reachable account and a position [index] within its ledger,
    the year that the tooltip of [plot_investment] extracts from the label
    is the simulated year of that record, [2025 + index / 12]; no
    [IndexError] arises. *)
Theorem hover_year_is_the_simulated_year (self : InvestmentAccount) (index : Z) :
  reachable self ->
  (0 <= index < Z.of_nat (List.length (get_data self)))%Z ->
  hover_year self index = Some (str (2025 + index / 12)).
Proof.
  intros Hr Hi. unfold hover_year, get_data in *. cbv zeta.
  unfold list_get at 1.
  destruct (Z.ltb_spec index 0) as [Hneg | _]; [lia |].
  destruct (nth_error (data self) (Z.to_nat index)) as [[l r] |] eqn:Hn.
  - rewrite nth_error_map, Hn. cbn [option_map fst].
    apply (reachable_rows self _ l r Hr) in Hn. destruct Hn as [f [_ [-> _]]].
    rewrite split_label_at.
    change (list_get [?a; ?b] (-1)) with (Some b). do 3 f_equal.
    rewrite Nat2Z.inj_div. now rewrite Z2Nat.id by lia.
  - apply nth_error_None in Hn. lia.
Qed.

Lemma hover_year_is_the_simulated_year_witness :
  hover_year (fst (simulate pea 2)) 13 = Some (str (2025 + 13 / 12)).
Proof.
  apply (hover_year_is_the_simulated_year (fst (simulate pea 2)) 13).
  - apply reach_simulate, reach_init.
  - unfold get_data.
    pose proof (ledger_length_after_simulate pea 2 (reach_init _ _ _ _ _ _)) as H.
    cbn [data pea __init__ List.length] in H. rewrite H; [lia | cbn; lra | lia].
Defined.

(** * Fees between quarters *)

(** X14.  In the ledger of a reachable account the column "Montants totaux
    de frais de gestion" moves only in the third month of a quarter: a
    record whose position within its block of twelve is not 2, 5, 8 or 11
    repeats the value of the record before it. *)
Theorem cumulative_fees_move_only_quarterly
    (self : InvestmentAccount) (i : nat) (l1 l2 : string) (r1 r2 : Row) :
  reachable self ->
  nth_error (get_data self) i = Some (l1, r1) ->
  nth_error (get_data self) (S i) = Some (l2, r2) ->
  (S i mod 3 <> 2)%nat ->
  montants_totaux_de_frais_de_gestion r2
  = montants_totaux_de_frais_de_gestion r1.
Proof.
  intros Hr H1 H2 Hq.
  apply (reachable_rows self _ _ _ Hr) in H1. destruct H1 as [f [Hf [_ ->]]].
  apply (reachable_rows self _ _ _ Hr) in H2. destruct H2 as [f' [Hf' [_ ->]]].
  assert (f' = f) by congruence. subst f'.
  cbn [emitted montants_totaux_de_frais_de_gestion]. unfold month_at.
  rewrite <- (totals_after_S self f i).
  unfold spec_step at 1. cbn [after total_fees_cumulative].
  destruct (Z.eqb_spec (month_of (S i) mod 3) 0) as [E | _].
  - exfalso. unfold month_of in E.
    pose proof (Nat.Div0.mod_mul_r (S i) 3 4) as Hm.
    change (3 * 4)%nat with 12%nat in Hm.
    assert (H3 : (S i mod 3 < 3)%nat) by (apply Nat.mod_upper_bound; discriminate).
    assert (H4 : (S i / 3 mod 4 < 4)%nat) by (apply Nat.mod_upper_bound; discriminate).
    rewrite Hm in E. clear Hm.
    destruct (S i mod 3)%nat as [| [| [| a]]]; [| | now apply Hq | lia];
      destruct (S i / 3 mod 4)%nat as [| [| [| [| b]]]];
      (discriminate E || lia).
  - f_equal. lra.
Qed.

Lemma cumulative_fees_move_only_quarterly_witness :
  let f := Rpower (1 + 10 / 100) (1 / 12) in
  montants_totaux_de_frais_de_gestion
    (emitted assurance_vie (month_at assurance_vie f 4))
  = montants_totaux_de_frais_de_gestion
      (emitted assurance_vie (month_at assurance_vie f 3)).
Proof.
  assert (Hf : growth_factor assurance_vie = Some (Rpower (1 + 10 / 100) (1 / 12)))
    by (apply py_pow_pos; cbn; lra).
  assert (E : forall i,
             emitted (fst (simulate assurance_vie 1))
               (month_at (fst (simulate assurance_vie 1))
                  (Rpower (1 + 10 / 100) (1 / 12)) i)
             = emitted assurance_vie
                 (month_at assurance_vie (Rpower (1 + 10 / 100) (1 / 12)) i)).
  { intros i. apply emitted_configuration. apply simulate_configuration.
    split; reflexivity. }
  apply (cumulative_fees_move_only_quarterly (fst (simulate assurance_vie 1)) 3
           (label_at 3) (label_at 4)).
  - apply reach_simulate, reach_init.
  - unfold get_data. apply simulate_nth; [apply reach_init | exact Hf | lia].
  - unfold get_data. apply simulate_nth; [apply reach_init | exact Hf | lia].
  - cbn. lia.
Defined.
